(** * bundleparty: the log scanner of [bundleparty.py]

    A shallow embedding of [run_analysis], the scanner behind the menu of the
    Terraform Enterprise log analyzer, and of its table [ANALYSES], with the
    properties of the line evaluator, of the file walker and of the sink.

    A [string] stands for a Python [str] through its UTF-8 encoding, on which
    the substring test, [endswith], concatenation and truthiness are those of
    the [str].  The calls into Python's library whose results the scanner
    uses but does not define ([str.lower], [re.compile], [Pattern.search])
    are the methods of a class, [Library]; the properties hold for every
    library, and an executable model of the library on ASCII text runs the
    scanner on concrete inputs. *)

From Stdlib Require Import String Ascii List Bool Arith Lia.
From stdpp Require Import gmap strings fin_maps.
Import ListNotations.
Open Scope string_scope.
Open Scope list_scope.

(** ** Strings *)

Module Str.

(** [sub in s]: Python's substring test on [str]. *)
Fixpoint contains (sub s : string) : bool :=
  String.prefix sub s ||
  match s with
  | EmptyString => false
  | String _ s' => contains sub s'
  end.

(** [s.endswith(suffix)]. *)
Fixpoint endswith (s suffix : string) : bool :=
  String.eqb s suffix ||
  match s with
  | EmptyString => false
  | String _ s' => endswith s' suffix
  end.

(** [s.endswith((a, b, ...))]: a tuple of suffixes. *)
Definition endswith_any (s : string) (suffixes : list string) : bool :=
  existsb (endswith s) suffixes.

(** Truthiness of a [str]: only the empty string is falsy. *)
Definition truthy (s : string) : bool :=
  match s with
  | EmptyString => false
  | String _ _ => true
  end.

(** The mathematical relations the boolean tests decide. *)
Definition Substring (sub s : string) : Prop :=
  exists a b, s = a +:+ sub +:+ b.

Definition Suffix (suffix s : string) : Prop :=
  exists a, s = a +:+ suffix.

End Str.

(** ** Configuration *)

(** The double quote, which several entries of the table contain. *)
Definition dq : string := String "034"%char EmptyString.

Definition OUTPUT_DIR_NAME : string := "analysis_results".

(** One entry of [ANALYSES].  The keys ["ignore_terms"] and ["is_regex"] are
    optional in the table; [main] reads them with [dict.get]. *)
Module Analysis.
Record t := Make {
  name : string;
  terms : list string;
  ignore_terms : option (list string);
  output_file : string;
  is_regex : option bool
}.
End Analysis.

Definition ANALYSES : list (string * Analysis.t) :=
  [ ("1", Analysis.Make "General Errors (fail, error, unable)"
            ["fail"; "error"; "unable"]
            (Some [ dq +:+ "auth_error_code" +:+ dq +:+ ":null";
                    dq +:+ "error" +:+ dq +:+ ": " +:+ dq +:+ dq;
                    "Postgres failed to look up setting";
                    "TaskResultsErroredWorker";
                    "Agent token invalid";
                    "/agent/status status=401" ])
            "general_errors.txt" (Some false));
    ("2", Analysis.Make "HTTP Client/Server Errors (4xx/5xx)"
            [ dq +:+ "status" +:+ dq +:+ ":\s?[45]\d{2}";
              "HTTP/\d\.\d" +:+ dq +:+ "\s+[45]\d{2}";
              "status=[45]\d{2}";
              "unexpected status code \([45]\d{2}" ]
            None "http_error_codes.txt" (Some true));
    ("3", Analysis.Make "Failing Startup Checks"
            ["check failed"; "startup checks failed"]
            None "startup_failures.txt" (Some false));
    ("4", Analysis.Make "Connection Errors"
            ["failed to connect to"; "connection refused";
             "error acquiring connection"]
            None "connection_errors.txt" (Some false));
    ("5", Analysis.Make "Vault Seal/Auth Errors"
            ["Error checking seal status"; "retrieving vault token"]
            None "vault_errors.txt" (Some false));
    ("6", Analysis.Make "Authentication & Credentials"
            ["could not find default credentials";
             "no valid providers in chain";
             "no token provided";
             "unauthenticated";
             "Agent token invalid"]
            None "auth_credential_errors.txt" (Some false));
    ("7", Analysis.Make "Failing Terraform Runs"
            ["Finished handling run with errors";
             "failed running terraform plan"]
            None "failing_terraform_runs.txt" (Some false));
    ("8", Analysis.Make "Notification Delivery Errors"
            ["Unable to deliver"; "Notifications::DeliveryError"]
            None "notification_delivery_errors.txt" (Some false));
    ("9", Analysis.Make "Webhook Issues"
            ["webhook"; "webhooks"; "WebhooksController"]
            None "webhook_analysis.txt" (Some false)) ].

(** ** The world around the scanner *)

(** What the scanner prints, on stdout or stderr, as far as it matters. *)
Inductive Message :=
| InvalidRegex (pattern : string)        (* Warning: Invalid regex pattern ... skipped *)
| CannotCreateOutputDir                  (* Error: Could not create output directory *)
| CannotReadFile (dirpath filename : string)  (* Could not read or process file *)
| CannotWriteOutput                      (* Error: Could not write to output file *)
| Found (n : nat)                        (* Found n matching log entries. *)
| NoMatches.                             (* No matching log entries were found. *)

(** A file as a reader sees it: the lines the iteration yields (each with its
    terminator, decoding errors ignored), and whether opening or reading
    raises once these lines have been yielded. *)
Record File := { lines : list string; fails : bool }.

(** What [os.walk] yields: each directory path with the names of its files,
    here together with the file behind each name. *)
Definition Walk : Type := list (string * list (string * File)).

(** The disk: the tree under the working directory, without the output
    directory, and the files of the output directory when it exists, each
    with the strings written to it. *)
Record Disk := {
  tree : Walk;
  results : option (gmap string (list string))
}.

(** The results file of a run, when it exists.  [output_filename] is a plain
    file name, as those of the table and of the custom search are: the file
    is in the output directory. *)
Definition dest (d : Disk) (output_filename : string) : option (list string) :=
  match results d with
  | Some dir => dir !! output_filename
  | None => None
  end.

(** The answers of the operating system to the three calls of a run that
    can fail: creating the output directory, removing the old results file,
    opening the results file. *)
Record OS := { mkdir_ok : bool; unlink_ok : bool; open_ok : bool }.

(** [os.walk(base_path)] from ['.']: the output directory is one of the
    directories walked.  The order of the walk is the file system's. *)
Definition os_walk (d : Disk) : Walk :=
  tree d ++
  match results d with
  | None => []
  | Some dir =>
      [ ("./" +:+ OUTPUT_DIR_NAME,
         map (fun '(n, content) => (n, {| lines := content; fails := false |}))
             (map_to_list dir)) ]
  end.

(** [str(pathlib.Path(dirpath) / filename)] for a [dirpath] of the walk,
    which is ["."] or starts with ["./"]. *)
Definition path_of (dirpath filename : string) : string :=
  if String.eqb dirpath "." then filename
  else if String.prefix "./" dirpath
       then String.substring 2 (String.length dirpath - 2) dirpath +:+ "/" +:+ filename
       else dirpath +:+ "/" +:+ filename.

(** The record written for a matching line. *)
Definition format_record (file_path matched_term line : string) : string :=
  "[" +:+ file_path +:+ "] [Matched: '" +:+ matched_term +:+ "'] " +:+ line.

(** [for x in xs: if test(x): result = x; break], with [None] when the loop
    ends without a hit. *)
Fixpoint first_match {A : Type} (test : A -> bool) (xs : list A) : option A :=
  match xs with
  | [] => None
  | x :: rest => if test x then Some x else first_match test rest
  end.

(** ** The scanner: [run_analysis] *)

(** Python's library, as far as [run_analysis] calls it.  [re_compile]
    answers [None] when [re.compile] raises [re.error], the failure that the
    scanner handles.  Another exception of [re.compile] ([OverflowError],
    [RecursionError]) is not an answer of [re_compile]: it is a fault of
    [Faults], further down, and the scanner that meets it is [Full]. *)
Class Library := {
  lower : string -> string;              (* str.lower() *)
  Regex : Type;                          (* the program of a compiled pattern *)
  re_compile : string -> option Regex;   (* re.compile(p, re.IGNORECASE); None: re.error *)
  re_search : Regex -> string -> bool    (* whether p.search(line) is a match *)
}.

Section Scanner.

Context {py : Library}.

(** A compiled pattern object remembers its source text, [p.pattern]. *)
Record Pattern := { pattern : string; code : Regex }.

(** *** Step 3: pre-processing of the search terms *)

(** The loop that fills [compiled_patterns], with the warnings it prints,
    when [re.compile] raises nothing but [re.error]; [Full.compile_patterns]
    is the loop that another exception leaves. *)
Fixpoint compile_patterns (search_terms : list string)
  : list Pattern * list Message :=
  match search_terms with
  | [] => ([], [])
  | p :: rest =>
      let '(compiled, warnings) := compile_patterns rest in
      match re_compile p with
      | Some c => ({| pattern := p; code := c |} :: compiled, warnings)
      | None => (compiled, InvalidRegex p :: warnings)
      end
  end.

(** The variables of [run_analysis] that the scan reads, after step 3. *)
Record Prepared := {
  is_regex : bool;
  compiled_patterns : list Pattern;
  search_terms : list string;
  ignore_terms : list string
}.

Definition preprocess (is_regex : bool) (search_terms ignore_terms : list string)
  : Prepared * list Message :=
  if is_regex then
    let '(compiled, warnings) := compile_patterns search_terms in
    ({| is_regex := true; compiled_patterns := compiled;
        search_terms := search_terms; ignore_terms := ignore_terms |},
     warnings)
  else
    ({| is_regex := false; compiled_patterns := [];
        search_terms := map lower search_terms;
        ignore_terms := map lower ignore_terms |},
     []).

(** *** The body of the loop over the lines of a file *)

(** [matched_term] after the loop over the patterns or the terms. *)
Definition match_line (m : Prepared) (line : string) : option string :=
  if is_regex m then
    option_map pattern
      (first_match (fun p => re_search (code p) line) (compiled_patterns m))
  else
    let line_lower := lower line in
    first_match (fun term => Str.contains term line_lower) (search_terms m).

Definition line_to_check (m : Prepared) (line : string) : string :=
  if is_regex m then line else lower line.

(** [any(ignore in line_to_check for ignore in ignore_terms)]. *)
Definition ignored (m : Prepared) (line : string) : bool :=
  existsb (fun ignore => Str.contains ignore (line_to_check m line))
          (ignore_terms m).

(** The term with which the line is written, if it is written:
    [if matched_term:] holds for a non-empty string only. *)
Definition evaluate (m : Prepared) (line : string) : option string :=
  match match_line m line with
  | Some matched_term =>
      if Str.truthy matched_term then
        if negb (ignored m line) then Some matched_term else None
      else None
  | None => None
  end.

(** The state of the scan: the counter, what has been written to
    [out_file], the files passed to [open] for reading, and the messages
    about files that could not be read. *)
Record Scan := {
  found_matches : nat;
  out_file : list string;
  opened : list (string * string);
  complaints : list Message
}.

(** The state when the walk starts: [found_matches = 0], nothing written. *)
Definition fresh : Scan :=
  {| found_matches := 0; out_file := []; opened := []; complaints := [] |}.

(** The body of the loop over the lines when [out_file.write] returns;
    [Full.process_line] is the body whose write can raise. *)
Definition process_line (m : Prepared) (file_path : string)
           (st : Scan) (line : string) : Scan :=
  match evaluate m line with
  | Some matched_term =>
      {| found_matches := found_matches st + 1;
         out_file := out_file st ++ [format_record file_path matched_term line];
         opened := opened st;
         complaints := complaints st |}
  | None => st
  end.

(** *** Step 4: the walk *)

Definition scan_file (m : Prepared) (dirpath filename : string) (f : File)
           (st : Scan) : Scan :=
  let file_path := path_of dirpath filename in
  let st0 := {| found_matches := found_matches st;
                out_file := out_file st;
                opened := opened st ++ [(dirpath, filename)];
                complaints := complaints st |} in
  let st1 := fold_left (process_line m file_path) (lines f) st0 in
  if fails f then
    {| found_matches := found_matches st1;
       out_file := out_file st1;
       opened := opened st1;
       complaints := complaints st1 ++ [CannotReadFile dirpath filename] |}
  else st1.

Definition scan_dir (m : Prepared) (dirpath : string)
           (filenames : list (string * File)) (st : Scan) : Scan :=
  fold_left
    (fun st '(filename, f) =>
       if Str.endswith_any filename [".log"; ".json"]
       then scan_file m dirpath filename f st
       else st)
    filenames st.

Definition scan (m : Prepared) (walk : Walk) (st : Scan) : Scan :=
  fold_left
    (fun st '(dirpath, filenames) =>
       if Str.contains OUTPUT_DIR_NAME dirpath then st
       else scan_dir m dirpath filenames st)
    walk st.

(** *** The run *)

Inductive Outcome :=
| ReturnedEarly   (* the [return] of step 1: no summary *)
| Raised          (* an exception that [run_analysis] does not catch *)
| Completed.      (* the summary of step 5 has been printed *)

Record Result := {
  outcome : Outcome;
  disk : Disk;
  messages : list Message;
  scanned : list (string * string);   (* files opened for reading *)
  written : list string;              (* what went through [out_file.write] *)
  count : nat                         (* [found_matches] at the end *)
}.

(** [output_path.mkdir(exist_ok=True)]: the files of the output directory
    afterwards, or [None] for [OSError]. *)
Definition mkdir (os : OS) (d : Disk) : option (gmap string (list string)) :=
  match results d with
  | Some dir => Some dir
  | None => if mkdir_ok os then Some ∅ else None
  end.

(** [if output_file_path.exists(): output_file_path.unlink()]. *)
Definition clear_old (os : OS) (output_filename : string)
           (dir : gmap string (list string))
  : option (gmap string (list string)) :=
  match dir !! output_filename with
  | Some _ => if unlink_ok os then Some (delete output_filename dir) else None
  | None => Some dir
  end.

(** Step 5. *)
Definition summary (found_matches : nat) : Message :=
  if (0 <? found_matches)%nat then Found found_matches else NoMatches.

(** The run in which every write returns and [re.compile] raises nothing
    but [re.error]; [Full.run_analysis] is the run with these two faults,
    and it is this one when neither occurs.  The lines that a run prints
    before step 1 (what it searches for and ignores) are not among the
    [messages]. *)
Definition run_analysis (os : OS) (d : Disk)
           (search_terms : list string) (output_filename : string)
           (is_regex : bool) (ignore_terms : option (list string)) : Result :=
  let ignore_terms := default [] ignore_terms in
  match mkdir os d with
  | None =>
      {| outcome := ReturnedEarly; disk := d;
         messages := [CannotCreateOutputDir];
         scanned := []; written := []; count := 0 |}
  | Some dir =>
      match clear_old os output_filename dir with
      | None =>
          {| outcome := Raised;
             disk := {| tree := tree d; results := Some dir |};
             messages := []; scanned := []; written := []; count := 0 |}
      | Some dir =>
          let '(m, warnings) := preprocess is_regex search_terms ignore_terms in
          if open_ok os then
            (* mode "a": what the file holds is kept, writes go after it *)
            let old := default [] (dir !! output_filename) in
            let d1 := {| tree := tree d;
                         results := Some (<[output_filename := old]> dir) |} in
            let st := scan m (os_walk d1)
                           {| found_matches := 0; out_file := [];
                              opened := []; complaints := [] |} in
            {| outcome := Completed;
               disk := {| tree := tree d;
                          results := Some (<[output_filename := old ++ out_file st]> dir) |};
               messages := warnings ++ complaints st ++ [summary (found_matches st)];
               scanned := opened st;
               written := out_file st;
               count := found_matches st |}
          else
            {| outcome := Completed;
               disk := {| tree := tree d; results := Some dir |};
               messages := warnings ++ [CannotWriteOutput; summary 0];
               scanned := []; written := []; count := 0 |}
      end
  end.

(** *** The vocabulary of the properties *)

(** The state after step 3 alone. *)
Definition prepared (is_regex : bool) (search_terms ignore_terms : list string)
  : Prepared :=
  fst (preprocess is_regex search_terms ignore_terms).

(** The text form in which a line, or an ignore term, is compared. *)
Definition text_form (is_regex : bool) (s : string) : string :=
  if is_regex then s else lower s.

(** Whether a term is a pattern that [re.compile] accepts. *)
Definition compiles (term : string) : bool :=
  match re_compile term with
  | Some _ => true
  | None => false
  end.

(** The test that a term of the caller passes on a line: in regex mode the
    term compiles and its search succeeds; in literal mode the lowercased
    line contains the lowercased term. *)
Definition hits (is_regex : bool) (line term : string) : bool :=
  if is_regex then
    match re_compile term with
    | Some c => re_search c line
    | None => false
    end
  else Str.contains (lower term) (lower line).

Definition Hits (is_regex : bool) (line term : string) : Prop :=
  if is_regex then
    exists c, re_compile term = Some c /\ re_search c line = true
  else Str.Substring (lower term) (lower line).

(** A line contains one of the ignore terms, in the text form of the mode. *)
Definition Suppressed (is_regex : bool) (ignore_terms : list string)
           (line : string) : Prop :=
  exists ignore,
    In ignore ignore_terms /\
    Str.Substring (text_form is_regex ignore) (text_form is_regex line).

(** The lines the walk reads, each with the path of its file, in order. *)
Definition lines_read (walk : Walk) : list (string * string) :=
  flat_map
    (fun '(dirpath, filenames) =>
       if Str.contains OUTPUT_DIR_NAME dirpath then []
       else
         flat_map
           (fun '(filename, f) =>
              if Str.endswith_any filename [".log"; ".json"]
              then map (pair (path_of dirpath filename)) (lines f)
              else [])
           filenames)
    walk.

(** The files the walk opens. *)
Definition candidates (walk : Walk) : list (string * string) :=
  flat_map
    (fun '(dirpath, filenames) =>
       if Str.contains OUTPUT_DIR_NAME dirpath then []
       else
         flat_map
           (fun '(filename, f) =>
              if Str.endswith_any filename [".log"; ".json"]
              then [(dirpath, filename)]
              else [])
           filenames)
    walk.

(** The files of the walk whose reading raises. *)
Definition failures (walk : Walk) : list Message :=
  flat_map
    (fun '(dirpath, filenames) =>
       if Str.contains OUTPUT_DIR_NAME dirpath then []
       else
         flat_map
           (fun '(filename, f) =>
              if Str.endswith_any filename [".log"; ".json"] && fails f
              then [CannotReadFile dirpath filename]
              else [])
           filenames)
    walk.

(** A state of the scan after more records, files and complaints. *)
Definition advance (st : Scan) (rs : list string) (fs : list (string * string))
           (cs : list Message) : Scan :=
  {| found_matches := found_matches st + length rs;
     out_file := out_file st ++ rs;
     opened := opened st ++ fs;
     complaints := complaints st ++ cs |}.

(** A line that matched a term and contains no ignore term. *)
Definition matched_and_kept (m : Prepared) (line : string) : bool :=
  match match_line m line with
  | Some _ => negb (ignored m line)
  | None => false
  end.


(** The record of a line, if it has one. *)
Definition record_of (m : Prepared) (entry : string * string) : list string :=
  match evaluate m (snd entry) with
  | Some matched_term => [format_record (fst entry) matched_term (snd entry)]
  | None => []
  end.

(** The records of a walk. *)
Definition records (m : Prepared) (walk : Walk) : list string :=
  flat_map (record_of m) (lines_read walk).

End Scanner.

(** ** An executable model of the library calls

    The model is for ASCII text.  [Py.lower] is [str.lower] on such text.
    [Re] models [re.compile(_, re.IGNORECASE)] and [Pattern.search] on the
    fragment of the pattern syntax that [ANALYSES] uses: literal characters,
    the dot, the escapes for digits and for white space, escaped punctuation,
    sets of literal characters, and the quantifiers [?], [+], [*] and [{n}].
    Patterns outside the fragment are not modelled: [Re.compile] answers
    [None] for them, as it does for the patterns of the fragment that Python
    rejects. *)

Module Py.

Definition lower_char (c : ascii) : ascii :=
  let n := nat_of_ascii c in
  if ((65 <=? n) && (n <=? 90))%nat
  then ascii_of_nat (n + 32)
  else c.

Fixpoint lower (s : string) : string :=
  match s with
  | EmptyString => EmptyString
  | String c s' => String (lower_char c) (lower s')
  end.

End Py.

Module Re.

Inductive re :=
| Void
| Eps
| Class (accept : ascii -> bool)
| Cat (r1 r2 : re)
| Alt (r1 r2 : re)
| Star (r : re).

Fixpoint nullable (r : re) : bool :=
  match r with
  | Void => false
  | Eps => true
  | Class _ => false
  | Cat r1 r2 => nullable r1 && nullable r2
  | Alt r1 r2 => nullable r1 || nullable r2
  | Star _ => true
  end.

Fixpoint deriv (c : ascii) (r : re) : re :=
  match r with
  | Void => Void
  | Eps => Void
  | Class accept => if accept c then Eps else Void
  | Cat r1 r2 =>
      if nullable r1
      then Alt (Cat (deriv c r1) r2) (deriv c r2)
      else Cat (deriv c r1) r2
  | Alt r1 r2 => Alt (deriv c r1) (deriv c r2)
  | Star r1 => Cat (deriv c r1) (Star r1)
  end.

(** Whether some prefix of [s] is in the language of [r]. *)
Fixpoint match_here (r : re) (s : string) : bool :=
  nullable r ||
  match s with
  | EmptyString => false
  | String c s' => match_here (deriv c r) s'
  end.

(** [search]: a match that starts anywhere in [s]. *)
Fixpoint search (r : re) (s : string) : bool :=
  match_here r s ||
  match s with
  | EmptyString => false
  | String _ s' => search r s'
  end.

(** The words of a pattern: what [match_here] and [search] look for. *)
Inductive Lang : re -> string -> Prop :=
| Lang_Eps : Lang Eps ""
| Lang_Class accept c : accept c = true -> Lang (Class accept) (String c "")
| Lang_Cat r1 r2 w1 w2 :
    Lang r1 w1 -> Lang r2 w2 -> Lang (Cat r1 r2) (w1 +:+ w2)
| Lang_Alt_l r1 r2 w : Lang r1 w -> Lang (Alt r1 r2) w
| Lang_Alt_r r1 r2 w : Lang r2 w -> Lang (Alt r1 r2) w
| Lang_Star_nil r : Lang (Star r) ""
| Lang_Star_app r w1 w2 :
    Lang r w1 -> Lang (Star r) w2 -> Lang (Star r) (w1 +:+ w2).

Fixpoint repeat_exactly (n : nat) (r : re) : re :=
  match n with
  | O => Eps
  | S k => Cat r (repeat_exactly k r)
  end.

(** Character classes. *)
Definition code_in (lo hi : nat) (c : ascii) : bool :=
  ((lo <=? nat_of_ascii c) && (nat_of_ascii c <=? hi))%nat.

Definition is_digit (c : ascii) : bool := code_in 48 57 c.

Definition is_space (c : ascii) : bool :=
  code_in 9 13 c || code_in 28 32 c.

Definition is_ascii_alnum (c : ascii) : bool :=
  code_in 48 57 c || code_in 65 90 c || code_in 97 122 c.

(** A literal under [re.IGNORECASE]. *)
Definition same_letter (c x : ascii) : bool :=
  Ascii.eqb (Py.lower_char c) (Py.lower_char x).

Definition one_of (cs : list ascii) (x : ascii) : bool :=
  existsb (fun c => same_letter c x) cs.

Definition not_newline (x : ascii) : bool := negb (Ascii.eqb x "010"%char).

(** The parser reads the pattern character by character. *)
Inductive Mode :=
| Normal
| Escape
| InSet (members : list ascii)
| InBraces (n : option nat).

Record Parser := {
  done_ : re;              (* the items before the last one *)
  last_ : option re;       (* the last item, which a quantifier may follow *)
  quantified : bool;       (* the last item already has its quantifier *)
  mode : Mode
}.

Definition seal (p : Parser) : re :=
  match last_ p with
  | Some r => Cat (done_ p) r
  | None => done_ p
  end.

Definition push (p : Parser) (atom : re) : option Parser :=
  Some {| done_ := seal p; last_ := Some atom; quantified := false; mode := Normal |}.

Definition quantify (p : Parser) (q : re -> re) : option Parser :=
  match last_ p with
  | Some r =>
      if quantified p then None
      else Some {| done_ := done_ p; last_ := Some (q r);
                   quantified := true; mode := Normal |}
  | None => None
  end.

Definition with_mode (p : Parser) (m : Mode) : option Parser :=
  Some {| done_ := done_ p; last_ := last_ p;
          quantified := quantified p; mode := m |}.

Definition digit_value (c : ascii) : nat := nat_of_ascii c - 48.

Definition step (p : Parser) (c : ascii) : option Parser :=
  match mode p with
  | Normal =>
      if Ascii.eqb c "\" then with_mode p Escape
      else if Ascii.eqb c "[" then with_mode p (InSet [])
      else if Ascii.eqb c "{" then
        match last_ p with
        | Some _ => if quantified p then None else with_mode p (InBraces None)
        | None => None
        end
      else if Ascii.eqb c "?" then quantify p (fun r => Alt r Eps)
      else if Ascii.eqb c "+" then quantify p (fun r => Cat r (Star r))
      else if Ascii.eqb c "*" then quantify p Star
      else if Ascii.eqb c "." then push p (Class not_newline)
      else if Ascii.eqb c "(" || Ascii.eqb c ")" || Ascii.eqb c "|"
              || Ascii.eqb c "^" || Ascii.eqb c "$" then None
      else push p (Class (same_letter c))
  | Escape =>
      if Ascii.eqb c "d" then push p (Class is_digit)
      else if Ascii.eqb c "s" then push p (Class is_space)
      else if is_ascii_alnum c then None
      else push p (Class (Ascii.eqb c))
  | InSet members =>
      if Ascii.eqb c "]" then
        match members with
        | [] => None
        | _ => push p (Class (one_of members))
        end
      else if Ascii.eqb c "\" || Ascii.eqb c "-" || Ascii.eqb c "^"
              || Ascii.eqb c "[" then None
      else with_mode p (InSet (members ++ [c]))
  | InBraces n =>
      if is_digit c then
        with_mode p (InBraces (Some (10 * default 0 n + digit_value c)))
      else if Ascii.eqb c "}" then
        match n with
        | Some k => quantify p (repeat_exactly k)
        | None => None
        end
      else None
  end.

Fixpoint parse (p : Parser) (s : string) : option Parser :=
  match s with
  | EmptyString => Some p
  | String c s' =>
      match step p c with
      | Some p' => parse p' s'
      | None => None
      end
  end.

Definition compile (pattern : string) : option re :=
  match parse {| done_ := Eps; last_ := None; quantified := false; mode := Normal |}
              pattern with
  | Some p =>
      match mode p with
      | Normal => Some (seal p)
      | _ => None
      end
  | None => None
  end.

End Re.

(** The scanner on the executable library. *)
Definition model : Library :=
  {| lower := Py.lower; Regex := Re.re;
     re_compile := Re.compile; re_search := Re.search |}.

Module Run.

Definition preprocess := @preprocess model.
Definition prepared := @prepared model.
Definition match_line := @match_line model.
Definition evaluate := @evaluate model.
Definition process_line := @process_line model.
Definition matched_and_kept := @matched_and_kept model.
Definition scan := @scan model.
Definition run_analysis := @run_analysis model.

(** What [main] calls for an entry of the table. *)
Definition run_config (os : OS) (d : Disk) (a : Analysis.t) :=
  run_analysis os d (Analysis.terms a) (Analysis.output_file a)
               (default false (Analysis.is_regex a)) (Analysis.ignore_terms a).

(** What [main] calls for custom search terms. *)
Definition run_custom (os : OS) (d : Disk) (custom_terms : list string) :=
  run_analysis os d custom_terms "custom_search_results.txt" false None.

End Run.

(** *** Inputs of the examples *)

Definition os_ok : OS := {| mkdir_ok := true; unlink_ok := true; open_ok := true |}.


Definition readable (ls : list string) : File := {| lines := ls; fails := false |}.

(** An output directory with the results of earlier runs. *)
Definition example_results : gmap string (list string) :=
  <[ "custom_search_results.txt" := ["[old.log] [Matched: 'x'] stale"] ]>
    (<[ "old.log" := ["error"] ]> ∅).

(** A tree with a text file, two logs, a directory of archived results, and
    an output directory that holds the results of earlier runs. *)
Definition example_disk : Disk :=
  {| tree :=
       [ (".", [ ("app.txt", readable ["disk error in a text file"]);
                 ("app.log", readable ["all good"; "disk ERROR: write failed";
                                       "GET /run status=404"]) ]);
         ("./sub", [ ("b.json", readable ["{ }"]);
                     ("notes.md", readable ["error"]) ]);
         ("./analysis_results/archive", [ ("old.log", readable ["error"]) ]) ];
     results := Some example_results |}.

(** A tree with one log of one line, and no output directory yet. *)
Definition one_line_disk : Disk :=
  {| tree := [(".", [("a.log", readable ["x"])])]; results := None |}.

(** [ANALYSES[key]]. *)
Definition analysis (key : string) : option Analysis.t :=
  option_map snd (find (fun entry => String.eqb (fst entry) key) ANALYSES).

(** The first pattern of the analysis of HTTP errors, and two lines of a
    JSON log. *)
Definition http_status_pattern : string :=
  dq +:+ "status" +:+ dq +:+ ":\s?[45]\d{2}".

Definition line_404 : string := dq +:+ "status" +:+ dq +:+ ": 404 done".

Definition line_200 : string := dq +:+ "status" +:+ dq +:+ ": 200 done".

(** ** The menu: [main] *)

(** One call of [run_analysis], with its arguments. *)
Record Call := {
  call_terms : list string;
  call_output : string;
  call_is_regex : bool;
  call_ignores : option (list string)
}.

(** How [main] calls [run_analysis] for an entry of the table: the optional
    keys are read with [dict.get]. *)
Definition config_call (a : Analysis.t) : Call :=
  {| call_terms := Analysis.terms a;
     call_output := Analysis.output_file a;
     call_is_regex := default false (Analysis.is_regex a);
     call_ignores := Analysis.ignore_terms a |}.

(** How [main] calls [run_analysis] for custom terms: the other arguments
    keep their defaults. *)
Definition custom_call (custom_terms : list string) : Call :=
  {| call_terms := custom_terms;
     call_output := "custom_search_results.txt";
     call_is_regex := false;
     call_ignores := None |}.

(** [s.split(',')]: the pieces between the commas, at least one. *)
Fixpoint split_comma (s : string) : list string :=
  match s with
  | EmptyString => [EmptyString]
  | String c s' =>
      if Ascii.eqb c ","
      then EmptyString :: split_comma s'
      else match split_comma s' with
           | piece :: pieces => String c piece :: pieces
           | [] => [String c EmptyString]
           end
  end.

(** How [main] ends: the choice to quit, [EOFError] from [input] when the
    input is used up, or an exception out of [run_analysis]. *)
Inductive Exit :=
| Quit
| EndOfInput
| Exception.

Section Menu.

Context {py : Library}.

(** [str.strip()]. *)
Variable strip : string -> string.

(** One run of a session: the answers of the operating system to it, the
    disk it started from, its arguments and what it returned. *)
Record Step := {
  step_os : OS;
  step_before : Disk;
  step_call : Call;
  step_result : Result
}.

Record Session := {
  exit : Exit;
  after : Disk;
  steps : list Step
}.

Definition perform (os : OS) (d : Disk) (c : Call) : Result :=
  run_analysis os d (call_terms c) (call_output c) (call_is_regex c)
               (call_ignores c).

(** [[term.strip() for term in choice.split(',') if term.strip()]]. *)
Definition custom_terms (choice : string) : list string :=
  map strip
      (List.filter (fun term => Str.truthy (strip term)) (split_comma choice)).

(** One call from the menu: the step, the disk it leaves, and whether its
    exception leaves [main]. *)
Definition run_one (os_at : nat -> OS) (n : nat) (d : Disk) (c : Call)
  : list Step * Disk * bool :=
  let res := perform (os_at n) d c in
  ([ {| step_os := os_at n; step_before := d;
        step_call := c; step_result := res |} ],
   disk res,
   match outcome res with
   | Raised => true
   | _ => false
   end).

(** [for analysis_config in ANALYSES.values(): run_analysis(...)]: one run
    after the other, the [n]-th run of the session first; an exception ends
    the loop. *)
Fixpoint run_each (os_at : nat -> OS) (n : nat) (d : Disk)
         (configs : list Analysis.t) : list Step * Disk * bool :=
  match configs with
  | [] => ([], d, false)
  | a :: rest =>
      let '(first, d1, raised) := run_one os_at n d (config_call a) in
      if raised then (first, d1, true)
      else
        let '(others, d2, raised') := run_each os_at (S n) d1 rest in
        (first ++ others, d2, raised')
  end.

(** The loop of [main] over the lines that [input] returns. *)
Fixpoint main (os_at : nat -> OS) (n : nat) (d : Disk) (inputs : list string)
  : Session :=
  match inputs with
  | [] => {| exit := EndOfInput; after := d; steps := [] |}
  | line :: rest =>
      let choice := strip line in
      if negb (Str.truthy choice) then main os_at n d rest
      else
        let choice_lower := lower choice in
        if String.eqb choice_lower "q" then
          {| exit := Quit; after := d; steps := [] |}
        else
          let '(done, d', raised) :=
            if String.eqb choice_lower "a" then
              run_each os_at n d (map snd ANALYSES)
            else
              match analysis choice with
              | Some a => run_one os_at n d (config_call a)
              | None =>
                  match custom_terms choice with
                  | [] => ([], d, false)
                  | terms => run_one os_at n d (custom_call terms)
                  end
              end in
          if raised then {| exit := Exception; after := d'; steps := done |}
          else
            (* input("Press Enter to return to the main menu...") *)
            match rest with
            | [] => {| exit := EndOfInput; after := d'; steps := done |}
            | _ :: rest' =>
                let s := main os_at (n + length done) d' rest' in
                {| exit := exit s; after := after s;
                   steps := done ++ steps s |}
            end
  end.

(** The calls that the menu can make: for an entry of the table, or for
    the custom terms of a choice that has some. *)
Definition Menu_call (c : Call) : Prop :=
  (exists key a, In (key, a) ANALYSES /\ c = config_call a)
  \/ (exists choice,
        custom_terms choice <> [] /\ c = custom_call (custom_terms choice)).

(** The results files that the menu writes. *)
Definition menu_outputs : list string :=
  "custom_search_results.txt" :: map (fun entry => Analysis.output_file (snd entry)) ANALYSES.

(** No run among these raised. *)
Definition calm (done : list Step) : Prop :=
  Forall (fun st => outcome (step_result st) <> Raised) done.

(** The runs so far and whether an exception is on its way out: if so, the
    last run raised and no run before it did; if not, none did. *)
Definition stopped (done : list Step) (raised : bool) : Prop :=
  if raised
  then exists pre st,
         done = pre ++ [st] /\ calm pre /\ outcome (step_result st) = Raised
  else calm done.


End Menu.

(** [str.strip()] on ASCII text. *)
Module Text.

Fixpoint lstrip (s : string) : string :=
  match s with
  | EmptyString => EmptyString
  | String c s' => if Re.is_space c then lstrip s' else s
  end.

Fixpoint rstrip (s : string) : string :=
  match s with
  | EmptyString => EmptyString
  | String c s' =>
      match rstrip s' with
      | EmptyString => if Re.is_space c then EmptyString else String c EmptyString
      | kept => String c kept
      end
  end.

Definition strip (s : string) : string := lstrip (rstrip s).

End Text.

(** The menu on the executable library. *)
Module Shell.

Definition custom_terms := @custom_terms Text.strip.
Definition main := @main model Text.strip.

End Shell.

(** *** More inputs of the examples *)

Definition os_unlink_fails : OS :=
  {| mkdir_ok := true; unlink_ok := false; open_ok := true |}.

Definition os_mkdir_fails : OS :=
  {| mkdir_ok := false; unlink_ok := true; open_ok := true |}.


(** A session: a custom search, the analysis of HTTP errors, and the choice
    to quit. *)
Definition example_session : Session :=
  Shell.main (fun _ => os_ok) 0 example_disk
             [" Error , ,status "; ""; "2"; ""; "Q"].

(** A tree with a log whose reading raises after its second line. *)
Definition flaky_disk : Disk :=
  {| tree :=
       [ (".", [ ("a.log", {| lines := ["error one"; "fine"]; fails := true |});
                 ("b.log", readable ["error two"]) ]) ];
     results := None |}.

(** ** The scanner with the exceptions of a write and of [re.compile]

    [run_analysis] above is the run in which every call of [out_file.write]
    returns and [re.compile] raises nothing but [re.error].  The code meets
    two more exceptions.  A write can raise, when the encoder of the sink
    refuses the record: the counter has been incremented by then, nothing of
    the record reaches the sink, the handler of the file catches the
    exception, and the rest of the file is skipped.  And [re.compile] can
    raise an exception that is not [re.error] (a repetition number that is
    too large, a pattern nested too deep), which nothing catches.  [Full] is
    the scanner with both; it is the scanner above when neither occurs.  An
    error of the device under the sink, which may show at a later write or
    when the sink is closed, is in neither. *)

(** What can go wrong besides the answers of the operating system. *)
Class Faults := {
  (* re.compile(p, re.IGNORECASE) raises an exception that is not re.error *)
  re_raises : string -> bool;
  (* the n-th call of out_file.write of the run, with this record, returns;
     when it raises, the sink is as it was *)
  write_ok : nat -> string -> bool
}.

Module Full.

Section WithFaults.

Context {py : Library} {faults : Faults}.

(** The loop that fills [compiled_patterns]: the patterns compiled, the
    warnings printed, and whether an exception left the loop. *)
Fixpoint compile_patterns (search_terms : list string)
  : list Pattern * list Message * bool :=
  match search_terms with
  | [] => ([], [], false)
  | p :: rest =>
      if re_raises p then ([], [], true)
      else
        let '(compiled, warnings, raised) := compile_patterns rest in
        match re_compile p with
        | Some c => ({| pattern := p; code := c |} :: compiled, warnings, raised)
        | None => (compiled, InvalidRegex p :: warnings, raised)
        end
  end.

(** Step 3: the state of the run after it, the warnings, and whether an
    exception left it. *)
Definition preprocess (is_regex : bool) (search_terms ignore_terms : list string)
  : Prepared * list Message * bool :=
  if is_regex then
    let '(compiled, warnings, raised) := compile_patterns search_terms in
    ({| is_regex := true; compiled_patterns := compiled;
        search_terms := search_terms; ignore_terms := ignore_terms |},
     warnings, raised)
  else
    ({| is_regex := false; compiled_patterns := [];
        search_terms := map lower search_terms;
        ignore_terms := map lower ignore_terms |},
     [], false).

(** The body of the loop over the lines: the counter first, then the write,
    which may raise. *)
Definition process_line (m : Prepared) (file_path : string)
           (st : Scan) (line : string) : Scan * bool :=
  match evaluate m line with
  | Some matched_term =>
      let counted := found_matches st + 1 in
      let record := format_record file_path matched_term line in
      if write_ok counted record then
        ({| found_matches := counted;
            out_file := out_file st ++ [record];
            opened := opened st;
            complaints := complaints st |},
         false)
      else
        ({| found_matches := counted;
            out_file := out_file st;
            opened := opened st;
            complaints := complaints st |},
         true)
  | None => (st, false)
  end.

(** The loop over the lines of a file, which an exception leaves. *)
Fixpoint read_lines (m : Prepared) (file_path : string) (ls : list string)
         (st : Scan) : Scan * bool :=
  match ls with
  | [] => (st, false)
  | line :: rest =>
      let '(st1, raised) := process_line m file_path st line in
      if raised then (st1, true) else read_lines m file_path rest st1
  end.

(** A file: [except Exception] catches what the reading and the writing
    raise, prints its complaint, and the walk goes on. *)
Definition scan_file (m : Prepared) (dirpath filename : string) (f : File)
           (st : Scan) : Scan :=
  let file_path := path_of dirpath filename in
  let st0 := {| found_matches := found_matches st;
                out_file := out_file st;
                opened := opened st ++ [(dirpath, filename)];
                complaints := complaints st |} in
  let '(st1, raised) := read_lines m file_path (lines f) st0 in
  if raised || fails f then
    {| found_matches := found_matches st1;
       out_file := out_file st1;
       opened := opened st1;
       complaints := complaints st1 ++ [CannotReadFile dirpath filename] |}
  else st1.

Definition scan_dir (m : Prepared) (dirpath : string)
           (filenames : list (string * File)) (st : Scan) : Scan :=
  fold_left
    (fun st '(filename, f) =>
       if Str.endswith_any filename [".log"; ".json"]
       then scan_file m dirpath filename f st
       else st)
    filenames st.

Definition scan (m : Prepared) (walk : Walk) (st : Scan) : Scan :=
  fold_left
    (fun st '(dirpath, filenames) =>
       if Str.contains OUTPUT_DIR_NAME dirpath then st
       else scan_dir m dirpath filenames st)
    walk st.

(** The run.  An exception of step 3 leaves [run_analysis] after the old
    results file has been removed and before the sink is opened. *)
Definition run_analysis (os : OS) (d : Disk)
           (search_terms : list string) (output_filename : string)
           (is_regex : bool) (ignore_terms : option (list string)) : Result :=
  let ignore_terms := default [] ignore_terms in
  match mkdir os d with
  | None =>
      {| outcome := ReturnedEarly; disk := d;
         messages := [CannotCreateOutputDir];
         scanned := []; written := []; count := 0 |}
  | Some dir =>
      match clear_old os output_filename dir with
      | None =>
          {| outcome := Raised;
             disk := {| tree := tree d; results := Some dir |};
             messages := []; scanned := []; written := []; count := 0 |}
      | Some dir =>
          let '(m, warnings, raised) :=
            preprocess is_regex search_terms ignore_terms in
          if raised then
            {| outcome := Raised;
               disk := {| tree := tree d; results := Some dir |};
               messages := warnings;
               scanned := []; written := []; count := 0 |}
          else if open_ok os then
            let old := default [] (dir !! output_filename) in
            let d1 := {| tree := tree d;
                         results := Some (<[output_filename := old]> dir) |} in
            let st := scan m (os_walk d1) fresh in
            {| outcome := Completed;
               disk := {| tree := tree d;
                          results := Some (<[output_filename := old ++ out_file st]> dir) |};
               messages := warnings ++ complaints st ++ [summary (found_matches st)];
               scanned := opened st;
               written := out_file st;
               count := found_matches st |}
          else
            {| outcome := Completed;
               disk := {| tree := tree d; results := Some dir |};
               messages := warnings ++ [CannotWriteOutput; summary 0];
               scanned := []; written := []; count := 0 |}
      end
  end.

End WithFaults.

End Full.

(** No fault at all. *)
Definition no_faults : Faults :=
  {| re_raises := fun _ => false; write_ok := fun _ _ => true |}.

(** *** An executable model of the faults

    The encoder of the sink refuses a text that has a surrogate, which is
    how [os.walk] returns the bytes of a file name that are not valid UTF-8:
    a record can be written iff its bytes are valid UTF-8.  [re.compile]
    raises [OverflowError] when it reads a repetition number of [MAXREPEAT]
    or more.  [Limits.raises] recognises the patterns in which that number
    is in the first brace, after a pattern that compiles and has neither a
    backslash nor a set; on any other pattern it answers [false], and the
    examples use no other pattern that raises. *)

Module Utf8.

(** [need] continuation bytes are still expected, the next of them between
    [lo] and [hi]. *)
Fixpoint valid_from (need lo hi : nat) (s : string) : bool :=
  match s with
  | EmptyString => (need =? 0)%nat
  | String c s' =>
      let b := nat_of_ascii c in
      match need with
      | O =>
          if (b <? 128)%nat then valid_from 0 128 191 s'
          else if ((194 <=? b) && (b <=? 223))%nat then valid_from 1 128 191 s'
          else if (b =? 224)%nat then valid_from 2 160 191 s'
          else if (b =? 237)%nat then valid_from 2 128 159 s'
          else if ((225 <=? b) && (b <=? 239))%nat then valid_from 2 128 191 s'
          else if (b =? 240)%nat then valid_from 3 144 191 s'
          else if ((241 <=? b) && (b <=? 243))%nat then valid_from 3 128 191 s'
          else if (b =? 244)%nat then valid_from 3 128 143 s'
          else false
      | S k =>
          if ((lo <=? b) && (b <=? hi))%nat then valid_from k 128 191 s'
          else false
      end
  end.

Definition valid (s : string) : bool := valid_from 0 128 191 s.

End Utf8.

Module Limits.

Definition MAXREPEAT : N := 4294967295%N.

(** The decimal number that [s] starts with, if any, and what follows it. *)
Fixpoint read_number (s : string) (acc : option N) : option N * string :=
  match s with
  | EmptyString => (acc, s)
  | String c s' =>
      if Re.is_digit c
      then read_number s' (Some (10 * default 0%N acc + (N_of_ascii c - 48))%N)
      else (acc, s)
  end.

(** The pattern before its first opening brace, when it holds neither a
    backslash nor a set, and the pattern after that brace. *)
Fixpoint before_brace (s : string) : option (string * string) :=
  match s with
  | EmptyString => None
  | String c s' =>
      if Ascii.eqb c "{" then Some (EmptyString, s')
      else if Ascii.eqb c "\" || Ascii.eqb c "[" then None
      else match before_brace s' with
           | Some (prefix, rest) => Some (String c prefix, rest)
           | None => None
           end
  end.

Definition raises (pattern : string) : bool :=
  match before_brace pattern with
  | Some (prefix, rest) =>
      match read_number rest None with
      | (Some n, String c _) =>
          Ascii.eqb c "}" && (MAXREPEAT <=? n)%N
          && match Re.compile prefix with
             | Some _ => true
             | None => false
             end
      | _ => false
      end
  | None => false
  end.

End Limits.

Definition faults_model : Faults :=
  {| re_raises := Limits.raises; write_ok := fun _ record => Utf8.valid record |}.

(** The scanner with its faults on the executable library. *)
Module FullRun.

Definition run_analysis := @Full.run_analysis model faults_model.

Definition run_custom (os : OS) (d : Disk) (custom_terms : list string) :=
  run_analysis os d custom_terms "custom_search_results.txt" false None.

End FullRun.

(** *** Inputs of the examples with faults *)

(** A log whose name is not valid UTF-8: Latin-1 for an accented letter. *)
Definition latin1_name : string :=
  "caf" +:+ String "233"%char EmptyString +:+ ".log".

Definition latin1_disk : Disk :=
  {| tree := [(".", [ (latin1_name, readable ["disk error"; "all good"; "error again"]);
                      ("z.log", readable ["late error"]) ])];
     results := None |}.

(** A pattern with a repetition number that [re.compile] refuses. *)
Definition overflowing_pattern : string := "a{4294967295}".

(** ** Facts about strings *)

Lemma prefix_spec (p s : string) :
  String.prefix p s = true <-> exists b, s = p +:+ b.
Proof.
  revert s. induction p as [|c p IH]; intros s.
  - split; [intros _; exists s; reflexivity | intros _; destruct s; reflexivity].
  - destruct s as [|d s]; simpl.
    + split; [discriminate | intros [b Hb]; discriminate].
    + destruct (Ascii.ascii_dec c d) as [Heq|Hne].
      * rewrite IH. split; intros [b Hb]; exists b.
        -- now rewrite Hb, Heq.
        -- now injection Hb.
      * split; [discriminate | intros [b Hb]; injection Hb; congruence].
Qed.

Lemma contains_spec (sub s : string) :
  Str.contains sub s = true <-> Str.Substring sub s.
Proof.
  unfold Str.Substring. induction s as [|c s IH]; cbn [Str.contains].
  - rewrite orb_false_r, prefix_spec. split.
    + intros [b Hb]. exists "", b. exact Hb.
    + intros [a [b Hab]]. destruct a; simpl in Hab.
      * exists b. exact Hab.
      * discriminate.
  - rewrite orb_true_iff, prefix_spec, IH. split.
    + intros [[b Hb] | [a [b Hab]]].
      * exists "", b. exact Hb.
      * exists (String c a), b. simpl. now rewrite Hab.
    + intros [a [b Hab]]. destruct a as [|d a]; simpl in Hab.
      * left. exists b. exact Hab.
      * right. exists a, b. now injection Hab.
Qed.

Lemma endswith_spec (s suffix : string) :
  Str.endswith s suffix = true <-> Str.Suffix suffix s.
Proof.
  unfold Str.Suffix. induction s as [|c s IH]; cbn [Str.endswith].
  - rewrite orb_false_r, String.eqb_eq. split.
    + intros <-. exists "". reflexivity.
    + intros [a Ha]. destruct a; simpl in Ha; [exact Ha | discriminate].
  - rewrite orb_true_iff, String.eqb_eq, IH. split.
    + intros [<- | [a Ha]].
      * exists "". reflexivity.
      * exists (String c a). simpl. now rewrite Ha.
    + intros [a Ha]. destruct a as [|d a]; simpl in Ha.
      * now left.
      * right. exists a. now injection Ha.
Qed.

Lemma contains_empty (s : string) : Str.contains "" s = true.
Proof. destruct s; reflexivity. Qed.

Lemma truthy_spec (s : string) : Str.truthy s = true <-> s <> "".
Proof. destruct s; simpl; split; congruence. Qed.

(** ** The pattern matcher of the model *)

Lemma append_cons (c : ascii) (a b : string) :
  String c a +:+ b = String c (a +:+ b).
Proof. reflexivity. Qed.

Lemma append_nil_l (b : string) : "" +:+ b = b.
Proof. reflexivity. Qed.

Lemma append_eq_nil (a b : string) : a +:+ b = "" -> a = "" /\ b = "".
Proof.
  destruct a; [now split|]. rewrite append_cons. discriminate.
Qed.



Lemma nullable_spec (r : Re.re) : Re.nullable r = true <-> Re.Lang r "".
Proof.
  split.
  - induction r as [| | |r1 IH1 r2 IH2|r1 IH1 r2 IH2|r1 IH1]; simpl; intros H;
      try discriminate.
    + constructor.
    + apply andb_true_iff in H as [H1 H2].
      exact (Re.Lang_Cat r1 r2 "" "" (IH1 H1) (IH2 H2)).
    + apply orb_true_iff in H as [H|H];
        [apply Re.Lang_Alt_l|apply Re.Lang_Alt_r]; auto.
    + constructor.
  - remember "" as w eqn:Hw. intros H.
    induction H as [|accept c Hc|r1 r2 w1 w2 H1 IH1 H2 IH2|r1 r2 w H IH
                    |r1 r2 w H IH| |r1 w1 w2 H1 IH1 H2 IH2]; simpl;
      try reflexivity; try discriminate.
    + apply append_eq_nil in Hw as [-> ->]. now rewrite IH1, IH2.
    + now rewrite IH.
    + rewrite IH by assumption. apply orb_true_r.
Qed.

(** A word of a starred pattern that starts with [c] starts with a word of
    the pattern that starts with [c]. *)
Lemma star_head (r : Re.re) (c : ascii) (w : string) :
  Re.Lang (Re.Star r) (String c w) ->
  exists w1 w2,
    w = w1 +:+ w2 /\ Re.Lang r (String c w1) /\ Re.Lang (Re.Star r) w2.
Proof.
  remember (Re.Star r) as sr eqn:Hsr. remember (String c w) as s eqn:Hs.
  intros H. revert w Hs.
  induction H as [|accept x Hx|r1 r2 w1 w2 H1 IH1 H2 IH2|r1 r2 v H IH
                  |r1 r2 v H IH|r1|r1 w1 w2 H1 IH1 H2 IH2]; intros w Hs;
    try discriminate.
  injection Hsr as ->. destruct w1 as [|x w1]; rewrite ?append_cons, ?append_nil_l in Hs.
  - now apply IH2.
  - injection Hs as -> <-. now exists w1, w2.
Qed.

Lemma Lang_Void_inv (w : string) : ~ Re.Lang Re.Void w.
Proof. intros H. inversion H. Qed.

Lemma Lang_Eps_inv (w : string) : Re.Lang Re.Eps w -> w = "".
Proof. intros H. now inversion H. Qed.

Lemma Lang_Class_inv (accept : ascii -> bool) (w : string) :
  Re.Lang (Re.Class accept) w -> exists c, w = String c "" /\ accept c = true.
Proof. intros H. inversion H; subst. eauto. Qed.

Lemma Lang_Cat_inv (r1 r2 : Re.re) (w : string) :
  Re.Lang (Re.Cat r1 r2) w ->
  exists w1 w2, w = w1 +:+ w2 /\ Re.Lang r1 w1 /\ Re.Lang r2 w2.
Proof. intros H. inversion H; subst. eauto. Qed.

Lemma Lang_Alt_inv (r1 r2 : Re.re) (w : string) :
  Re.Lang (Re.Alt r1 r2) w -> Re.Lang r1 w \/ Re.Lang r2 w.
Proof. intros H. inversion H; subst; auto. Qed.

(** The words of the derivative are the words of the pattern without their
    first character [c]. *)
Lemma deriv_spec (c : ascii) (r : Re.re) (w : string) :
  Re.Lang (Re.deriv c r) w <-> Re.Lang r (String c w).
Proof.
  split.
  - revert w. induction r as [| |accept|r1 IH1 r2 IH2|r1 IH1 r2 IH2|r1 IH1];
      cbn [Re.deriv]; intros w H.
    + now apply Lang_Void_inv in H.
    + now apply Lang_Void_inv in H.
    + destruct (accept c) eqn:Hc; [|now apply Lang_Void_inv in H].
      apply Lang_Eps_inv in H as ->. now constructor.
    + assert (Hcat : Re.Lang (Re.Cat (Re.deriv c r1) r2) w ->
                     Re.Lang (Re.Cat r1 r2) (String c w)).
      { intros Hd. apply Lang_Cat_inv in Hd as (w1 & w2 & -> & Hd1 & Hd2).
        exact (Re.Lang_Cat r1 r2 (String c w1) w2 (IH1 _ Hd1) Hd2). }
      destruct (Re.nullable r1) eqn:Hn; [|now apply Hcat].
      apply Lang_Alt_inv in H as [H|H]; [now apply Hcat|].
      apply nullable_spec in Hn.
      exact (Re.Lang_Cat r1 r2 "" (String c w) Hn (IH2 _ H)).
    + apply Lang_Alt_inv in H as [H|H];
        [apply Re.Lang_Alt_l|apply Re.Lang_Alt_r]; auto.
    + apply Lang_Cat_inv in H as (w1 & w2 & -> & Hd1 & Hd2).
      exact (Re.Lang_Star_app r1 (String c w1) w2 (IH1 _ Hd1) Hd2).
  - revert w. induction r as [| |accept|r1 IH1 r2 IH2|r1 IH1 r2 IH2|r1 IH1];
      cbn [Re.deriv]; intros w H.
    + now apply Lang_Void_inv in H.
    + apply Lang_Eps_inv in H. discriminate.
    + apply Lang_Class_inv in H as (x & [= -> ->] & Hc). rewrite Hc. constructor.
    + apply Lang_Cat_inv in H as (w1 & w2 & Hw & H1 & H2).
      destruct w1 as [|x w1]; rewrite ?append_cons, ?append_nil_l in Hw.
      * subst w2. apply nullable_spec in H1. rewrite H1.
        apply Re.Lang_Alt_r. now apply IH2.
      * injection Hw as <- ->.
        assert (Hcat : Re.Lang (Re.Cat (Re.deriv c r1) r2) (w1 +:+ w2))
          by (constructor; auto).
        destruct (Re.nullable r1); [now apply Re.Lang_Alt_l|exact Hcat].
    + apply Lang_Alt_inv in H as [H|H];
        [apply Re.Lang_Alt_l|apply Re.Lang_Alt_r]; auto.
    + apply star_head in H as (w1 & w2 & -> & H1 & H2).
      constructor; auto.
Qed.

(** [match_here] finds a word of the pattern at the start of the text. *)
Lemma match_here_spec (r : Re.re) (s : string) :
  Re.match_here r s = true
  <-> exists w rest, s = w +:+ rest /\ Re.Lang r w.
Proof.
  revert r. induction s as [|c s IH]; intros r; cbn [Re.match_here].
  - rewrite orb_false_r, nullable_spec. split.
    + intros H. now exists "", "".
    + intros (w & rest & Hs & H). symmetry in Hs.
      apply append_eq_nil in Hs as [-> _]. exact H.
  - rewrite orb_true_iff, nullable_spec, IH. split.
    + intros [H|(w & rest & -> & H)].
      * now exists "", (String c s).
      * exists (String c w), rest. split; [reflexivity|now apply deriv_spec].
    + intros (w & rest & Hs & H). destruct w as [|x w]; [now left|].
      rewrite ?append_cons, ?append_nil_l in Hs. injection Hs as <- ->. right.
      exists w, rest. split; [reflexivity|now apply deriv_spec].
Qed.

(** [search] finds a word of the pattern anywhere in the text. *)
Lemma search_spec (r : Re.re) (s : string) :
  Re.search r s = true
  <-> exists before w rest, s = before +:+ w +:+ rest /\ Re.Lang r w.
Proof.
  induction s as [|c s IH]; cbn [Re.search].
  - rewrite orb_false_r, match_here_spec. split.
    + intros (w & rest & Hs & H). now exists "", w, rest.
    + intros (before & w & rest & Hs & H). symmetry in Hs.
      apply append_eq_nil in Hs as [-> Hs]. now exists w, rest.
  - rewrite orb_true_iff, match_here_spec, IH. split.
    + intros [(w & rest & Hs & H)|(before & w & rest & -> & H)].
      * now exists "", w, rest.
      * now exists (String c before), w, rest.
    + intros (before & w & rest & Hs & H). destruct before as [|x before].
      * left. now exists w, rest.
      * rewrite ?append_cons, ?append_nil_l in Hs. injection Hs as <- ->. right. now exists before, w, rest.
Qed.

(** ** The loop with [break] *)

Section FirstMatch.
Context {A : Type} (test : A -> bool).

Lemma first_match_Some (xs : list A) (x : A) :
  first_match test xs = Some x <->
  exists pre post,
    xs = pre ++ x :: post /\ (forall y, In y pre -> test y = false) /\ test x = true.
Proof.
  induction xs as [|a xs IH]; simpl.
  - split; [discriminate|]. intros (pre & post & E & _). destruct pre; discriminate.
  - destruct (test a) eqn:Ha.
    + split.
      * intros [= <-]. exists [], xs. repeat split; [intros y []|exact Ha].
      * intros (pre & post & E & Hpre & Hx). destruct pre as [|b pre]; simpl in E.
        -- congruence.
        -- injection E as -> _. rewrite Hpre in Ha; [discriminate|now left].
    + rewrite IH. split.
      * intros (pre & post & -> & Hpre & Hx). exists (a :: pre), post.
        repeat split; [|exact Hx]. intros y [<-|Hy]; [exact Ha|now apply Hpre].
      * intros (pre & post & E & Hpre & Hx). destruct pre as [|b pre]; simpl in E.
        -- injection E as -> _. congruence.
        -- injection E as -> ->. exists pre, post.
           repeat split; [|exact Hx]. intros y Hy. apply Hpre. now right.
Qed.

Lemma first_match_None (xs : list A) :
  first_match test xs = None <-> forall y, In y xs -> test y = false.
Proof.
  induction xs as [|a xs IH]; simpl.
  - split; [intros _ y []|reflexivity].
  - destruct (test a) eqn:Ha.
    + split; [discriminate|]. intros H. rewrite H in Ha; [discriminate|now left].
    + rewrite IH. split.
      * intros H y [<-|Hy]; [exact Ha|now apply H].
      * intros H y Hy. apply H. now right.
Qed.

Lemma first_match_hit (xs : list A) :
  first_match test xs <> None <-> exists y, In y xs /\ test y = true.
Proof.
  rewrite first_match_None. split.
  - intros H. induction xs as [|a xs IH].
    + exfalso. apply H. intros y [].
    + destruct (test a) eqn:Ha.
      * exists a. split; [now left|exact Ha].
      * destruct IH as (y & Hy & Hty).
        -- intros Hall. apply H. intros y [<-|Hy]; [exact Ha|now apply Hall].
        -- exists y. split; [now right|exact Hty].
  - intros (y & Hy & Hty) Hall. rewrite (Hall y Hy) in Hty. discriminate.
Qed.

Lemma first_match_map {B : Type} (g : B -> A) (ys : list B) :
  first_match test (map g ys) = option_map g (first_match (fun y => test (g y)) ys).
Proof.
  induction ys as [|b ys IH]; simpl; [reflexivity|].
  destruct (test (g b)); [reflexivity|exact IH].
Qed.

End FirstMatch.

(** ** The line evaluator *)

Section Evaluator.

Context {py : Library}.

Lemma hits_spec (is_regex : bool) (line term : string) :
  hits is_regex line term = true <-> Hits is_regex line term.
Proof.
  unfold hits, Hits. destruct is_regex.
  - destruct (re_compile term) as [c|].
    + split; [intros H; now exists c | intros (c' & [= <-] & H); exact H].
    + split; [discriminate | intros (c' & E & _); discriminate].
  - apply contains_spec.
Qed.

(** The compiled patterns are the terms that compile, in their order; a
    warning is printed for each of the others. *)
Lemma compile_patterns_spec (terms : list string) :
  map pattern (fst (compile_patterns terms)) = List.filter compiles terms
  /\ snd (compile_patterns terms)
     = map InvalidRegex (List.filter (fun t => negb (compiles t)) terms).
Proof.
  induction terms as [|t terms [IHc IHw]]; [split; reflexivity|].
  cbn [compile_patterns List.filter].
  assert (Hc : compiles t = match re_compile t with Some _ => true | None => false end)
    by reflexivity.
  destruct (compile_patterns terms) as [compiled warnings]. simpl in IHc, IHw.
  destruct (re_compile t) as [c|]; rewrite Hc; simpl; now rewrite IHc, IHw.
Qed.

(** Searching the compiled patterns is searching the terms, a term that
    does not compile counting as a miss. *)
Lemma search_compiled (terms : list string) (line : string) :
  option_map pattern
    (first_match (fun p => re_search (code p) line)
                 (fst (compile_patterns terms)))
  = first_match (hits true line) terms.
Proof.
  induction terms as [|t terms IH]; [reflexivity|].
  cbn [compile_patterns first_match]. unfold hits at 1.
  destruct (compile_patterns terms) as [compiled warnings]. simpl in IH.
  destruct (re_compile t) as [c|]; simpl.
  - destruct (re_search c line); [reflexivity|exact IH].
  - exact IH.
Qed.

(** [matched_term] is the first term of the caller that passes the test of
    the mode, as the mode reports it: the pattern text, or the lowercased
    term. *)
Lemma match_line_first (is_regex : bool) (terms ignores : list string)
      (line : string) :
  match_line (prepared is_regex terms ignores) line
  = option_map (text_form is_regex) (first_match (hits is_regex line) terms).
Proof.
  unfold prepared, preprocess, match_line.
  destruct is_regex.
  - pose proof (search_compiled terms line) as H.
    destruct (compile_patterns terms) as [compiled warnings]. simpl in *.
    rewrite H. now destruct (first_match _ terms).
  - exact (first_match_map (fun term => Str.contains term (lower line)) lower terms).
Qed.

Lemma prepared_ignore_terms (is_regex : bool) (terms ignores : list string) :
  ignore_terms (prepared is_regex terms ignores)
  = map (text_form is_regex) ignores.
Proof.
  unfold prepared, preprocess. destruct is_regex; simpl.
  - destruct (compile_patterns terms). simpl. now rewrite map_id.
  - reflexivity.
Qed.

Lemma prepared_is_regex (r : bool) (terms ignores : list string) :
  is_regex (prepared r terms ignores) = r.
Proof.
  unfold prepared, preprocess. destruct r; simpl.
  - now destruct (compile_patterns terms).
  - reflexivity.
Qed.

Lemma ignored_spec (is_regex : bool) (terms ignores : list string)
      (line : string) :
  ignored (prepared is_regex terms ignores) line = true
  <-> Suppressed is_regex ignores line.
Proof.
  unfold ignored, line_to_check, Suppressed.
  rewrite prepared_ignore_terms, prepared_is_regex, existsb_exists.
  fold (text_form is_regex line). split.
  - intros (x & Hx & Hc). apply in_map_iff in Hx as (ig & <- & Hig).
    exists ig. split; [exact Hig|]. now apply contains_spec.
  - intros (ig & Hig & Hs). exists (text_form is_regex ig). split.
    + now apply in_map.
    + now apply contains_spec.
Qed.

(** A line is written exactly when a term matched, the matched term is not
    the empty string, and no ignore term is contained. *)
Lemma evaluate_Some (is_regex : bool) (terms ignores : list string)
      (line matched_term : string) :
  evaluate (prepared is_regex terms ignores) line = Some matched_term
  <-> match_line (prepared is_regex terms ignores) line = Some matched_term
      /\ matched_term <> ""
      /\ ~ Suppressed is_regex ignores line.
Proof.
  unfold evaluate.
  rewrite <- (ignored_spec is_regex terms ignores line), <- truthy_spec.
  destruct (match_line _ line) as [t|];
    [|split; [discriminate|intros [? _]; discriminate]].
  destruct (Str.truthy t) eqn:Ht, (ignored _ line) eqn:Hi; simpl;
    (split; [intros [= <-] | intros ([= <-] & ? & ?)]); intuition congruence.
Qed.

(** What [process_line] does to the state. *)
Lemma process_line_spec (m : Prepared) (file_path : string)
      (st : Scan) (line : string) :
  process_line m file_path st line
  = advance st (record_of m (file_path, line)) [] [].
Proof.
  unfold process_line, record_of, advance. simpl.
  destruct (evaluate m line); simpl; rewrite !app_nil_r.
  - reflexivity.
  - destruct st. simpl. now rewrite Nat.add_0_r.
Qed.

End Evaluator.

(** ** The walk *)

Section Walker.

Context {py : Library}.

Lemma advance_nil (st : Scan) : advance st [] [] [] = st.
Proof.
  destruct st. unfold advance. simpl. now rewrite Nat.add_0_r, !app_nil_r.
Qed.

Lemma advance_advance (st : Scan) rs1 fs1 cs1 rs2 fs2 cs2 :
  advance (advance st rs1 fs1 cs1) rs2 fs2 cs2
  = advance st (rs1 ++ rs2) (fs1 ++ fs2) (cs1 ++ cs2).
Proof.
  unfold advance. simpl. rewrite length_app, Nat.add_assoc, <- !app_assoc.
  reflexivity.
Qed.

(** The loop over the lines of a file. *)
Lemma lines_loop (m : Prepared) (file_path : string) (ls : list string)
      (st : Scan) :
  fold_left (process_line m file_path) ls st
  = advance st (flat_map (record_of m) (map (pair file_path) ls)) [] [].
Proof.
  revert st. induction ls as [|l ls IH]; intros st; simpl.
  - now rewrite advance_nil.
  - now rewrite IH, process_line_spec, advance_advance.
Qed.

Lemma scan_file_spec (m : Prepared) (dirpath filename : string) (f : File)
      (st : Scan) :
  scan_file m dirpath filename f st
  = advance st
      (flat_map (record_of m) (map (pair (path_of dirpath filename)) (lines f)))
      [(dirpath, filename)]
      (if fails f then [CannotReadFile dirpath filename] else []).
Proof.
  unfold scan_file. rewrite lines_loop.
  destruct (fails f); unfold advance; simpl; now rewrite ?app_nil_r.
Qed.

(** The loop over the files of a directory that is not skipped. *)
Lemma scan_dir_spec (m : Prepared) (dirpath : string)
      (filenames : list (string * File)) (st : Scan) :
  scan_dir m dirpath filenames st
  = advance st
      (flat_map (record_of m)
         (flat_map
            (fun '(filename, f) =>
               if Str.endswith_any filename [".log"; ".json"]
               then map (pair (path_of dirpath filename)) (lines f)
               else [])
            filenames))
      (flat_map
         (fun '(filename, f) =>
            if Str.endswith_any filename [".log"; ".json"]
            then [(dirpath, filename)]
            else [])
         filenames)
      (flat_map
         (fun '(filename, f) =>
            if Str.endswith_any filename [".log"; ".json"] && fails f
            then [CannotReadFile dirpath filename]
            else [])
         filenames).
Proof.
  unfold scan_dir. revert st.
  induction filenames as [|[filename f] rest IH]; intros st.
  - simpl. now rewrite advance_nil.
  - cbn [fold_left flat_map]. rewrite IH.
    destruct (Str.endswith_any filename [".log"; ".json"]).
    + rewrite scan_file_spec, advance_advance, flat_map_app. reflexivity.
    + reflexivity.
Qed.

(** The walk, in closed form. *)
Lemma scan_spec (m : Prepared) (walk : Walk) (st : Scan) :
  scan m walk st
  = advance st (records m walk) (candidates walk) (failures walk).
Proof.
  unfold scan, records. revert st.
  induction walk as [|[dirpath filenames] rest IH]; intros st.
  - simpl. now rewrite advance_nil.
  - cbn [fold_left lines_read candidates failures flat_map]. rewrite IH.
    destruct (Str.contains OUTPUT_DIR_NAME dirpath).
    + reflexivity.
    + rewrite scan_dir_spec, advance_advance, flat_map_app. reflexivity.
Qed.

End Walker.

(** ** The run *)

Section Runs.

Context {py : Library}.

Lemma clear_old_absent (os : OS) (output_filename : string)
      (dir dir' : gmap string (list string)) :
  clear_old os output_filename dir = Some dir' ->
  dir' !! output_filename = None.
Proof.
  unfold clear_old. destruct (dir !! output_filename) eqn:E.
  - destruct (unlink_ok os); [|discriminate].
    intros [= <-]. apply lookup_delete_eq.
  - now intros [= <-].
Qed.

Lemma lines_read_app (w1 w2 : Walk) :
  lines_read (w1 ++ w2) = lines_read w1 ++ lines_read w2.
Proof. apply flat_map_app. Qed.

(** The output directory is walked and skipped. *)
Lemma os_walk_lines (d : Disk) : lines_read (os_walk d) = lines_read (tree d).
Proof.
  unfold os_walk. rewrite lines_read_app.
  destruct (results d); simpl; now rewrite app_nil_r.
Qed.

Lemma os_walk_candidates (d : Disk) : candidates (os_walk d) = candidates (tree d).
Proof.
  unfold os_walk, candidates. rewrite flat_map_app.
  destruct (results d); simpl; now rewrite app_nil_r.
Qed.

Lemma os_walk_failures (d : Disk) : failures (os_walk d) = failures (tree d).
Proof.
  unfold os_walk, failures. rewrite flat_map_app.
  destruct (results d); simpl; now rewrite app_nil_r.
Qed.

(** The run, in closed form: what it leaves, prints and returns is decided
    by the three answers of the operating system, by the records of the
    tree, and by nothing that the results file held before. *)
Lemma run_analysis_spec (os : OS) (d : Disk) (terms : list string)
      (output_filename : string) (r : bool) (ignores : option (list string)) :
  run_analysis os d terms output_filename r ignores
  = match mkdir os d with
    | None =>
        {| outcome := ReturnedEarly; disk := d;
           messages := [CannotCreateOutputDir];
           scanned := []; written := []; count := 0 |}
    | Some dir =>
        match clear_old os output_filename dir with
        | None =>
            {| outcome := Raised;
               disk := {| tree := tree d; results := Some dir |};
               messages := []; scanned := []; written := []; count := 0 |}
        | Some dir' =>
            let m := prepared r terms (default [] ignores) in
            let warnings := snd (preprocess r terms (default [] ignores)) in
            if open_ok os then
              {| outcome := Completed;
                 disk := {| tree := tree d;
                            results := Some (<[output_filename := records m (tree d)]> dir') |};
                 messages := warnings ++ failures (tree d)
                             ++ [summary (length (records m (tree d)))];
                 scanned := candidates (tree d);
                 written := records m (tree d);
                 count := length (records m (tree d)) |}
            else
              {| outcome := Completed;
                 disk := {| tree := tree d; results := Some dir' |};
                 messages := warnings ++ [CannotWriteOutput; summary 0];
                 scanned := []; written := []; count := 0 |}
        end
    end.
Proof.
  unfold run_analysis, prepared.
  destruct (mkdir os d) as [dir|]; [|reflexivity].
  destruct (clear_old os output_filename dir) as [dir'|] eqn:Hclear; [|reflexivity].
  apply clear_old_absent in Hclear.
  destruct (preprocess r terms (default [] ignores)) as [m warnings].
  cbn [fst snd]. destruct (open_ok os); [|reflexivity].
  rewrite scan_spec, Hclear. unfold records.
  rewrite os_walk_lines, os_walk_candidates, os_walk_failures.
  reflexivity.
Qed.

Lemma first_match_filter {A : Type} (test keep : A -> bool) (xs : list A) :
  (forall x, test x = true -> keep x = true) ->
  first_match test (List.filter keep xs) = first_match test xs.
Proof.
  intros Hkeep. induction xs as [|x xs IH]; [reflexivity|]. simpl.
  destruct (test x) eqn:Hx.
  - rewrite (Hkeep x Hx). simpl. now rewrite Hx.
  - destruct (keep x); simpl; rewrite ?Hx; exact IH.
Qed.

Lemma hits_compiles (line term : string) :
  hits true line term = true -> compiles term = true.
Proof. unfold hits, compiles. now destruct (re_compile term). Qed.

(** The terms that do not compile play no part in the evaluation. *)
Lemma evaluate_filter_compiles (terms ignores : list string) (line : string) :
  evaluate (prepared true (List.filter compiles terms) ignores) line
  = evaluate (prepared true terms ignores) line.
Proof.
  unfold evaluate, ignored, line_to_check.
  rewrite !match_line_first, !prepared_ignore_terms, !prepared_is_regex.
  now rewrite (first_match_filter _ _ _ (hits_compiles line)).
Qed.

Lemma records_filter_compiles (terms ignores : list string) (walk : Walk) :
  records (prepared true (List.filter compiles terms) ignores) walk
  = records (prepared true terms ignores) walk.
Proof.
  unfold records. apply flat_map_ext. intros entry. unfold record_of.
  now rewrite evaluate_filter_compiles.
Qed.



(** The files of the walk that are opened. *)
Lemma candidates_spec (walk : Walk) (dirpath filename : string) :
  In (dirpath, filename) (candidates walk)
  <-> exists filenames f,
        In (dirpath, filenames) walk /\ In (filename, f) filenames
        /\ (Str.Suffix ".log" filename \/ Str.Suffix ".json" filename)
        /\ ~ Str.Substring OUTPUT_DIR_NAME dirpath.
Proof.
  unfold candidates. rewrite in_flat_map. split.
  - intros ([dp filenames] & Hdir & Hin).
    destruct (Str.contains OUTPUT_DIR_NAME dp) eqn:Hskip; [destruct Hin|].
    apply in_flat_map in Hin as ([fn f] & Hfile & Hin).
    destruct (Str.endswith_any fn [".log"; ".json"]) eqn:Hext; [|destruct Hin].
    destruct Hin as [[= -> ->]|[]]. exists filenames, f. repeat split; trivial.
    + unfold Str.endswith_any in Hext. simpl in Hext.
      rewrite orb_false_r in Hext. apply orb_true_iff in Hext.
      destruct Hext as [H|H]; apply endswith_spec in H; tauto.
    + intros Hs. apply contains_spec in Hs. congruence.
  - intros (filenames & f & Hdir & Hfile & Hext & Hskip).
    exists (dirpath, filenames). split; [exact Hdir|].
    destruct (Str.contains OUTPUT_DIR_NAME dirpath) eqn:Hc.
    + apply contains_spec in Hc. contradiction.
    + apply in_flat_map. exists (filename, f). split; [exact Hfile|].
      assert (Hany : Str.endswith_any filename [".log"; ".json"] = true).
      { unfold Str.endswith_any. simpl. rewrite orb_false_r. apply orb_true_iff.
        destruct Hext as [H|H]; apply endswith_spec in H; tauto. }
      rewrite Hany. now left.
Qed.

End Runs.

(** ** Matching *)



(** C2. In regex mode a line matches exactly when the search of a pattern
    that compiled succeeds on it.  The line with status 404 matches the first
    pattern of the analysis of HTTP errors, alone or within the analysis; the
    line with status 200 matches none; the search ignores case and may start
    anywhere in the line: in the model, it succeeds iff some part of the line
    is a word of the pattern. *)
Theorem C2_regex_matching_is_search :
  (forall (py : Library) (terms ignores : list string) (line : string),
      match_line (prepared true terms ignores) line <> None
      <-> exists term c,
            In term terms /\ re_compile term = Some c
            /\ re_search c line = true)
  /\ (forall (r : Re.re) (line : string),
        Re.search r line = true
        <-> exists before w rest,
              line = before +:+ w +:+ rest /\ Re.Lang r w)
  /\ Run.match_line (Run.prepared true [http_status_pattern] []) line_404
     = Some http_status_pattern
  /\ Run.match_line (Run.prepared true [http_status_pattern] []) line_200
     = None
  /\ option_map
       (fun a => map (Run.evaluate (Run.prepared true (Analysis.terms a) []))
                     [line_404; line_200; "code=7 STATUS=503 retry"])
       (analysis "2")
     = Some [Some http_status_pattern; None; Some "status=[45]\d{2}"].
Proof.
  split; [|split; [exact search_spec|repeat split; vm_compute; reflexivity]].
  intros py terms ignores line. rewrite match_line_first. split.
  - intros H.
    destruct (first_match (hits true line) terms) as [t|] eqn:E; [|now elim H].
    apply first_match_Some in E as (pre & post & -> & _ & Ht).
    apply (hits_spec true) in Ht as (c & Hc & Hs).
    exists t, c. split; [apply in_elt|]. now split.
  - intros (t & c & Hin & Hc & Hs).
    assert (Hhit : first_match (hits true line) terms <> None).
    { apply first_match_hit. exists t. split; [exact Hin|].
      apply (hits_spec true). now exists c. }
    destruct (first_match (hits true line) terms); [discriminate|now elim Hhit].
Qed.

(** The matched term of a line comes from the first term of the caller, in
    the caller's order, that passes the test of the mode. *)
Lemma match_line_origin `{py : Library} (is_regex : bool)
      (terms ignores : list string) (line matched_term : string) :
  match_line (prepared is_regex terms ignores) line = Some matched_term ->
  exists pre term post,
    terms = pre ++ term :: post
    /\ (forall t, In t pre -> ~ Hits is_regex line t)
    /\ Hits is_regex line term
    /\ matched_term = text_form is_regex term.
Proof.
  rewrite match_line_first.
  destruct (first_match (hits is_regex line) terms) as [t|] eqn:E; [|discriminate].
  intros [= <-]. apply first_match_Some in E as (pre & post & -> & Hpre & Ht).
  exists pre, t, post. repeat split.
  - intros u Hu Hhit. apply hits_spec in Hhit.
    rewrite (Hpre u Hu) in Hhit. discriminate.
  - now apply hits_spec.
Qed.


(** C4. The ignore terms are tested on a line that matched, by containment
    in the text form of the mode: in literal mode the lowercased ignore term
    in the lowercased line, in regex mode the ignore term as it is in the
    raw line.  A line is written iff a term matched it, the matched term is
    not empty, and it contains no ignore term; a line that contains an ignore
    term leaves the output and the counter as they were, and so does a line
    that no term matches, whatever the ignore terms.  With the term [error]
    and the ignore term [knownerror], the line [a knownerror occurred] is
    not written.  In regex mode an ignore term in another case does not
    suppress. *)
Theorem C4_ignore_terms_suppress :
  (forall (py : Library) (is_regex : bool) (terms ignores : list string)
          (line matched_term : string),
      evaluate (prepared is_regex terms ignores) line = Some matched_term
      <-> match_line (prepared is_regex terms ignores) line = Some matched_term
          /\ matched_term <> ""
          /\ ~ exists ignore,
                 In ignore ignores
                 /\ Str.Substring (if is_regex then ignore else lower ignore)
                                  (if is_regex then line else lower line))
  /\ (forall (py : Library) (is_regex : bool) (terms ignores : list string)
             (file_path : string) (st : Scan) (line ignore : string),
        In ignore ignores ->
        Str.Substring (if is_regex then ignore else lower ignore)
                      (if is_regex then line else lower line) ->
        process_line (prepared is_regex terms ignores) file_path st line = st)
  /\ (forall (py : Library) (is_regex : bool) (terms ignores : list string)
             (file_path : string) (st : Scan) (line : string),
        match_line (prepared is_regex terms ignores) line = None ->
        process_line (prepared is_regex terms ignores) file_path st line = st)
  /\ Run.evaluate (Run.prepared false ["error"] []) "a knownerror occurred"
     = Some "error"
  /\ Run.process_line (Run.prepared false ["error"] ["knownerror"]) "a.log"
       fresh "a knownerror occurred"
     = fresh
  /\ Run.evaluate (Run.prepared false ["error"] ["KnownError"])
                  "a KNOWNERROR occurred"
     = None
  /\ Run.evaluate (Run.prepared true ["status=[45]\d{2}"] ["Agent"])
                  "agent status=401"
     = Some "status=[45]\d{2}"
  /\ Run.evaluate (Run.prepared true ["status=[45]\d{2}"] ["agent"])
                  "agent status=401"
     = None.
Proof.
  split; [|split; [|split; [|repeat split; vm_compute; reflexivity]]].
  - intros py is_regex terms ignores line mt. apply evaluate_Some.
  - intros py is_regex terms ignores file_path st line ignore Hin Hs.
    rewrite process_line_spec. unfold record_of. cbn [fst snd].
    destruct (evaluate (prepared is_regex terms ignores) line) as [mt|] eqn:E;
      [|apply advance_nil].
    apply evaluate_Some in E as (_ & _ & Hno). exfalso. apply Hno.
    now exists ignore.
  - intros py is_regex terms ignores file_path st line Hnone.
    rewrite process_line_spec. unfold record_of, evaluate. cbn [fst snd].
    rewrite Hnone. apply advance_nil.
Qed.

(** C4, at a line that is suppressed and at one that no term matches. *)
Lemma C4_ignore_terms_suppress_witness :
  Run.process_line (Run.prepared false ["error"] ["knownerror"]) "a.log"
    {| found_matches := 2; out_file := ["x"; "y"]; opened := []; complaints := [] |}
    "a KnownError occurred"
  = {| found_matches := 2; out_file := ["x"; "y"]; opened := []; complaints := [] |}
  /\ Run.process_line (Run.prepared true ["status=[45]\d{2}"] []) "a.log"
       {| found_matches := 2; out_file := ["x"; "y"]; opened := []; complaints := [] |}
       "status=200"
     = {| found_matches := 2; out_file := ["x"; "y"]; opened := []; complaints := [] |}.
Proof.
  split.
  - apply (proj1 (proj2 C4_ignore_terms_suppress) model false) with (ignore := "knownerror").
    + simpl. now left.
    + apply contains_spec. vm_compute. reflexivity.
  - apply (proj1 (proj2 (proj2 C4_ignore_terms_suppress)) model true).
    vm_compute. reflexivity.
Defined.

(** C5, counterexample. The term of the vault analysis is reported in lower
    case, which is not the form in which the table, the caller, supplies
    it. *)
Lemma C5_reported_term_is_not_the_original :
  option_map
    (fun a => Run.evaluate (Run.prepared false (Analysis.terms a) [])
                           "2024-05-01 Error checking seal status: timeout")
    (analysis "5")
  = Some (Some "error checking seal status")
  /\ option_map Analysis.terms (analysis "5")
     = Some ["Error checking seal status"; "retrieving vault token"]
  /\ ~ In "error checking seal status"
          ["Error checking seal status"; "retrieving vault token"].
Proof.
  repeat split; try (vm_compute; reflexivity).
  intros [H|[H|[]]]; discriminate.
Qed.

(** C5, amended. In literal mode the term reported for a line that is
    written is the lowercased form of the first term, in the order of the
    caller, whose lowercased form the lowercased line contains. *)
Theorem C5_literal_reports_lowercased_term (py : Library)
        (terms ignores : list string) (line matched_term : string) :
  evaluate (prepared false terms ignores) line = Some matched_term ->
  exists pre term post,
    terms = pre ++ term :: post
    /\ (forall t, In t pre -> ~ Str.Substring (lower t) (lower line))
    /\ Str.Substring (lower term) (lower line)
    /\ matched_term = lower term.
Proof.
  intros E. apply evaluate_Some in E as (Hm & _ & _).
  exact (match_line_origin false terms ignores line matched_term Hm).
Qed.

(** C5, amended, at the vault analysis with its terms swapped. *)
Lemma C5_literal_reports_lowercased_term_witness :
  exists pre term post,
    ["retrieving vault token"; "Error checking seal status"]
    = pre ++ term :: post
    /\ (forall t, In t pre ->
          ~ Str.Substring (Py.lower t)
                          (Py.lower "Error checking seal status: timeout"))
    /\ Str.Substring (Py.lower term)
                     (Py.lower "Error checking seal status: timeout")
    /\ "error checking seal status" = Py.lower term.
Proof.
  apply (C5_literal_reports_lowercased_term model
           ["retrieving vault token"; "Error checking seal status"] []
           "Error checking seal status: timeout").
  vm_compute. reflexivity.
Defined.

(** ** Properties of a run *)

(** C7. The walk opens a file iff its name ends in [.log] or [.json] and
    the path of its directory does not contain the name of the output
    directory; a run opens these files of the tree and no file of the output
    directory.  In the example, [app.txt] holds a line with the term and is
    not opened, [app.log] and [b.json] are, and neither the old log under the
    archived results nor the one in the output directory is. *)
Theorem C7_scanned_files_by_extension_and_directory :
  (forall (py : Library) (m : Prepared) (walk : Walk)
          (dirpath filename : string),
      In (dirpath, filename) (opened (scan m walk fresh))
      <-> exists filenames f,
            In (dirpath, filenames) walk /\ In (filename, f) filenames
            /\ (Str.Suffix ".log" filename \/ Str.Suffix ".json" filename)
            /\ ~ Str.Substring OUTPUT_DIR_NAME dirpath)
  /\ (forall (py : Library) (os : OS) (d : Disk) (terms : list string)
             (output_filename : string) (r : bool)
             (ignores : option (list string)) (dirpath filename : string),
        let res := run_analysis os d terms output_filename r ignores in
        In (dirpath, filename) (scanned res)
        <-> (outcome res = Completed /\ open_ok os = true)
            /\ exists filenames f,
                 In (dirpath, filenames) (tree d) /\ In (filename, f) filenames
                 /\ (Str.Suffix ".log" filename \/ Str.Suffix ".json" filename)
                 /\ ~ Str.Substring OUTPUT_DIR_NAME dirpath)
  /\ (let res := Run.run_custom os_ok example_disk ["error"] in
      scanned res = [(".", "app.log"); ("./sub", "b.json")]
      /\ written res = ["[app.log] [Matched: 'error'] disk ERROR: write failed"]
      /\ map fst (os_walk (disk res))
         = ["."; "./sub"; "./analysis_results/archive"; "./analysis_results"]).
Proof.
  split; [|split].
  - intros py m walk dirpath filename. rewrite scan_spec.
    cbn [opened advance fresh app]. apply candidates_spec.
  - intros py os d terms output_filename r ignores dirpath filename. cbv zeta.
    rewrite run_analysis_spec.
    destruct (mkdir os d) as [dir|];
      [|cbn [scanned outcome]; split; [intros []|intros [[[=] _] _]]].
    destruct (clear_old os output_filename dir) as [dir'|];
      [|cbn [scanned outcome]; split; [intros []|intros [[[=] _] _]]].
    cbv zeta. destruct (open_ok os); cbn [scanned outcome].
    + rewrite candidates_spec. tauto.
    + split; [intros []|intros [[_ [=]] _]].
  - vm_compute. repeat split.
Qed.

(** The empty string as a term, which no entry of the table and no custom
    search has: the one line that is read matches it (it contains it) and no
    ignore term suppresses it, and yet [if matched_term:] drops the line, so
    that no record is written and the count is zero. *)
Lemma empty_term_is_matched_but_not_counted :
  let res := Run.run_analysis os_ok one_line_disk [""] "empty.txt" false None in
  let m := Run.prepared false [""] [] in
  outcome res = Completed
  /\ lines_read (tree one_line_disk) = [("a.log", "x")]
  /\ Run.match_line m "x" = Some ""
  /\ Run.matched_and_kept m "x" = true
  /\ length (List.filter (fun entry => Run.matched_and_kept m (snd entry))
                         (lines_read (tree one_line_disk))) = 1
  /\ count res = 0
  /\ written res = []
  /\ messages res = [NoMatches].
Proof. vm_compute. repeat split. Qed.



(** ** More about a run: its failures and what it leaves alone *)

Section RunFacts.

Context {py : Library}.

Lemma mkdir_lookup (os : OS) (d : Disk) (dir : gmap string (list string))
      (k : string) :
  mkdir os d = Some dir -> dir !! k = dest d k.
Proof.
  unfold mkdir, dest. destruct (results d) as [dir0|].
  - now intros [= <-].
  - destruct (mkdir_ok os); [|discriminate]. now intros [= <-].
Qed.

Lemma clear_old_other (os : OS) (output_filename other : string)
      (dir dir' : gmap string (list string)) :
  clear_old os output_filename dir = Some dir' ->
  other <> output_filename ->
  dir' !! other = dir !! other.
Proof.
  unfold clear_old. destruct (dir !! output_filename).
  - destruct (unlink_ok os); [|discriminate].
    intros [= <-] Hne. now apply lookup_delete_ne.
  - now intros [= <-].
Qed.

(** The warnings of step 3 are warnings about patterns. *)
Lemma warnings_are_invalid_regex (r : bool) (terms ignores : list string)
      (msg : Message) :
  In msg (snd (preprocess r terms ignores)) ->
  exists t, msg = InvalidRegex t /\ In t terms /\ compiles t = false.
Proof.
  unfold preprocess. destruct r; [|intros []].
  pose proof (compile_patterns_spec terms) as [_ Hw].
  destruct (compile_patterns terms) as [compiled warnings].
  cbn [snd] in *. rewrite Hw. intros H.
  apply in_map_iff in H as (t & <- & Ht). apply filter_In in Ht as [Hin Hc].
  exists t. repeat split; [exact Hin|]. now destruct (compiles t).
Qed.





(** A record is what [format_record] makes of a line that was read and
    evaluated to a term. *)
Lemma records_spec (m : Prepared) (walk : Walk) (r : string) :
  In r (records m walk)
  <-> exists file_path line matched_term,
        In (file_path, line) (lines_read walk)
        /\ evaluate m line = Some matched_term
        /\ r = format_record file_path matched_term line.
Proof.
  unfold records. rewrite in_flat_map. split.
  - intros ([fp line] & Hin & Hr). unfold record_of in Hr. cbn [fst snd] in Hr.
    destruct (evaluate m line) as [t|] eqn:E; [|destruct Hr].
    destruct Hr as [<-|[]]. now exists fp, line, t.
  - intros (fp & line & t & Hin & E & ->). exists (fp, line).
    split; [exact Hin|]. unfold record_of. cbn [fst snd]. rewrite E. now left.
Qed.

(** More ignore terms, fewer lines written. *)
Lemma evaluate_more_ignores (r : bool) (terms ignores extra : list string)
      (line matched_term : string) :
  evaluate (prepared r terms (ignores ++ extra)) line = Some matched_term ->
  evaluate (prepared r terms ignores) line = Some matched_term.
Proof.
  rewrite !evaluate_Some, !match_line_first. intros (Hm & Ht & Hno).
  repeat split; trivial. intros (ig & Hin & Hs). apply Hno.
  exists ig. split; [|exact Hs]. apply in_or_app. now left.
Qed.

Lemma records_more_ignores (r : bool) (terms ignores extra : list string)
      (walk : Walk) :
  sublist (records (prepared r terms (ignores ++ extra)) walk)
          (records (prepared r terms ignores) walk).
Proof.
  unfold records. induction (lines_read walk) as [|entry rest IH];
    [constructor|].
  cbn [flat_map]. apply sublist_app; [|exact IH].
  unfold record_of.
  destruct (evaluate (prepared r terms (ignores ++ extra)) (snd entry))
    as [t|] eqn:E.
  - apply evaluate_more_ignores in E. now rewrite E.
  - apply sublist_nil_l.
Qed.


(** A run changes its results file only. *)
Lemma run_frame (os : OS) (d : Disk) (terms : list string)
      (output_filename : string) (r : bool) (ignores : option (list string))
      (other : string) :
  other <> output_filename ->
  tree (disk (run_analysis os d terms output_filename r ignores)) = tree d
  /\ dest (disk (run_analysis os d terms output_filename r ignores)) other
     = dest d other.
Proof.
  intros Hne. rewrite run_analysis_spec.
  destruct (mkdir os d) as [dir|] eqn:Hmk; [|now split].
  pose proof (mkdir_lookup os d dir other Hmk) as Hdir.
  destruct (clear_old os output_filename dir) as [dir'|] eqn:Hclear;
    [|now split].
  pose proof (clear_old_other os output_filename other dir dir' Hclear Hne)
    as Hdir'.
  cbv zeta. destruct (open_ok os); cbn [disk tree dest results];
    (split; [reflexivity|]).
  - rewrite lookup_insert_ne by congruence. congruence.
  - congruence.
Qed.

Lemma run_tree (os : OS) (d : Disk) (terms : list string)
      (output_filename : string) (r : bool) (ignores : option (list string)) :
  tree (disk (run_analysis os d terms output_filename r ignores)) = tree d.
Proof.
  rewrite run_analysis_spec.
  destruct (mkdir os d) as [dir|]; [|reflexivity].
  destruct (clear_old os output_filename dir) as [dir'|]; [|reflexivity].
  cbv zeta. now destruct (open_ok os).
Qed.



End RunFacts.

(** X1. A run leaves the tree as it was, and every other file of the
    output directory as it was, however it ends. *)
Theorem X1_run_changes_only_its_results_file (py : Library)
        (os : OS) (d : Disk) (terms : list string) (output_filename : string)
        (r : bool) (ignores : option (list string)) (other : string) :
  let res := run_analysis os d terms output_filename r ignores in
  other <> output_filename ->
  tree (disk res) = tree d /\ dest (disk res) other = dest d other.
Proof.
  cbv zeta. intros Hne. now apply run_frame.
Qed.

(** X1, at a custom search and the old log of the output directory. *)
Lemma X1_run_changes_only_its_results_file_witness :
  let res := Run.run_custom os_ok example_disk ["error"] in
  tree (disk res) = tree example_disk
  /\ dest (disk res) "old.log" = Some ["error"].
Proof.
  apply (X1_run_changes_only_its_results_file model os_ok example_disk
           ["error"] "custom_search_results.txt" false None "old.log").
  discriminate.
Defined.

(** X2. When the old results file is there and cannot be removed, the
    exception of [unlink] leaves [run_analysis]: nothing is scanned or
    written, nothing is printed, not even the summary, and the old results
    stay. *)
Theorem X2_unlink_failure_raises_and_keeps_old_results (py : Library)
        (os : OS) (d : Disk) (terms : list string) (output_filename : string)
        (r : bool) (ignores : option (list string)) (old : list string) :
  let res := run_analysis os d terms output_filename r ignores in
  dest d output_filename = Some old ->
  unlink_ok os = false ->
  outcome res = Raised
  /\ dest (disk res) output_filename = Some old
  /\ messages res = [] /\ scanned res = [] /\ written res = [].
Proof.
  cbv zeta. intros Hold Hunlink. unfold run_analysis, mkdir, clear_old.
  unfold dest in Hold. destruct (results d) as [dir|]; [|discriminate].
  rewrite Hold, Hunlink. cbn [outcome disk dest results messages scanned written].
  now repeat split.
Qed.

(** X2, at a custom search over old results that cannot be removed. *)
Lemma X2_unlink_failure_raises_and_keeps_old_results_witness :
  let res := Run.run_custom os_unlink_fails example_disk ["error"] in
  outcome res = Raised
  /\ dest (disk res) "custom_search_results.txt"
     = Some ["[old.log] [Matched: 'x'] stale"]
  /\ messages res = [] /\ scanned res = [] /\ written res = [].
Proof.
  apply (X2_unlink_failure_raises_and_keeps_old_results model os_unlink_fails
           example_disk ["error"] "custom_search_results.txt" false None
           ["[old.log] [Matched: 'x'] stale"]); reflexivity.
Defined.



Lemma append_assoc (a b c : string) : (a +:+ b) +:+ c = a +:+ (b +:+ c).
Proof.
  induction a as [|x a IH]; [reflexivity|]. rewrite !append_cons. now f_equal.
Qed.

(** X6. Every record of a run comes from a line that the walk read in a
    file of the tree: it is the path of the file and a non-empty matched term
    in the record format, followed by the line as it was read. *)
Theorem X6_records_come_from_lines_read (py : Library)
        (os : OS) (d : Disk) (terms : list string) (output_filename : string)
        (r : bool) (ignores : option (list string)) (record : string) :
  let res := run_analysis os d terms output_filename r ignores in
  In record (written res) ->
  exists file_path line matched_term,
    In (file_path, line) (lines_read (tree d))
    /\ evaluate (prepared r terms (default [] ignores)) line = Some matched_term
    /\ matched_term <> ""
    /\ record = "[" +:+ file_path +:+ "] [Matched: '" +:+ matched_term
                +:+ "'] " +:+ line
    /\ Str.Suffix line record.
Proof.
  cbv zeta. rewrite run_analysis_spec.
  destruct (mkdir os d) as [dir|]; [|intros []].
  destruct (clear_old os output_filename dir) as [dir'|]; [|intros []].
  cbv zeta. destruct (open_ok os); cbn [written]; [|intros []].
  intros H. apply records_spec in H as (fp & line & t & Hin & E & ->).
  exists fp, line, t. repeat split; trivial.
  - now apply evaluate_Some in E as (_ & Ht & _).
  - unfold format_record, Str.Suffix.
    exists ("[" +:+ fp +:+ "] [Matched: '" +:+ t +:+ "'] ").
    now rewrite !append_assoc.
Qed.

(** X6, at the record of the custom search of the example. *)
Lemma X6_records_come_from_lines_read_witness :
  exists file_path line matched_term,
    In (file_path, line) (lines_read (tree example_disk))
    /\ Run.evaluate (Run.prepared false ["error"] []) line = Some matched_term
    /\ matched_term <> ""
    /\ "[app.log] [Matched: 'error'] disk ERROR: write failed"
       = "[" +:+ file_path +:+ "] [Matched: '" +:+ matched_term
         +:+ "'] " +:+ line
    /\ Str.Suffix line "[app.log] [Matched: 'error'] disk ERROR: write failed".
Proof.
  apply (X6_records_come_from_lines_read model os_ok example_disk ["error"]
           "custom_search_results.txt" false None).
  vm_compute. now left.
Defined.

(** X7. More ignore terms never add a record: the records written with
    further ignore terms are, in their order, among those written without
    them, and the count is not larger. *)
Theorem X7_more_ignore_terms_write_less :
  forall (py : Library) (os : OS) (d : Disk) (terms : list string)
         (output_filename : string) (r : bool) (ignores extra : list string),
    let res := run_analysis os d terms output_filename r (Some ignores) in
    let res' := run_analysis os d terms output_filename r
                             (Some (ignores ++ extra)) in
    outcome res' = outcome res
    /\ sublist (written res') (written res)
    /\ count res' <= count res.
Proof.
  intros py os d terms output_filename r ignores extra. cbv zeta.
  rewrite !run_analysis_spec.
  destruct (mkdir os d) as [dir|]; [|now repeat split].
  destruct (clear_old os output_filename dir) as [dir'|]; [|now repeat split].
  cbv zeta. destruct (open_ok os); cbn [outcome written count default];
    [|now repeat split].
  pose proof (records_more_ignores r terms ignores extra (tree d)) as Hsub.
  repeat split; [exact Hsub|]. now apply sublist_length.
Qed.

(** X8. In literal mode the verdict on a line depends on the line, on the
    terms and on the ignore terms through their lowercased forms only. *)
Theorem X8_literal_mode_is_blind_to_case (py : Library)
        (terms1 terms2 ignores1 ignores2 : list string) (line1 line2 : string) :
  map lower terms1 = map lower terms2 ->
  map lower ignores1 = map lower ignores2 ->
  lower line1 = lower line2 ->
  evaluate (prepared false terms1 ignores1) line1
  = evaluate (prepared false terms2 ignores2) line2.
Proof.
  intros Ht Hi Hl.
  unfold evaluate, ignored, line_to_check, match_line, prepared, preprocess.
  cbn [fst is_regex search_terms ignore_terms]. now rewrite Ht, Hi, Hl.
Qed.

(** X8, at two spellings of a term, of an ignore term and of a line. *)
Lemma X8_literal_mode_is_blind_to_case_witness :
  Run.evaluate (Run.prepared false ["Unable"] ["Known Issue"])
               "UNABLE to bind port"
  = Run.evaluate (Run.prepared false ["unable"] ["KNOWN issue"])
                 "unable to BIND port"
  /\ Run.evaluate (Run.prepared false ["unable"] ["KNOWN issue"])
                  "unable to BIND port"
     = Some "unable".
Proof.
  split; [|reflexivity].
  apply (X8_literal_mode_is_blind_to_case model); reflexivity.
Defined.

(** X9. When no term compiles in regex mode, and so too when there is no
    term at all, a run that completes warns about every term, writes
    nothing, says that nothing was found, and leaves an empty results file
    if its sink opened. *)
Theorem X9_no_pattern_compiles (py : Library)
        (os : OS) (d : Disk) (terms : list string) (output_filename : string)
        (ignores : option (list string)) :
  let res := run_analysis os d terms output_filename true ignores in
  (forall t, In t terms -> re_compile t = None) ->
  outcome res = Completed ->
  written res = [] /\ count res = 0
  /\ dest (disk res) output_filename = (if open_ok os then Some [] else None)
  /\ (forall t, In t terms -> In (InvalidRegex t) (messages res))
  /\ In NoMatches (messages res).
Proof.
  cbv zeta. intros Hnone.
  assert (Hrec : forall walk,
            records (prepared true terms (default [] ignores)) walk = []).
  { intros walk. unfold records.
    induction (lines_read walk) as [|entry rest IH]; [reflexivity|].
    cbn [flat_map]. rewrite IH, app_nil_r. unfold record_of, evaluate.
    rewrite match_line_first.
    assert (E : first_match (hits true (snd entry)) terms = None).
    { apply first_match_None. intros t Ht. unfold hits.
      now rewrite (Hnone t Ht). }
    now rewrite E. }
  assert (Hwarn : forall t, In t terms ->
            In (InvalidRegex t) (snd (preprocess true terms (default [] ignores)))).
  { intros t Hin. unfold preprocess.
    pose proof (compile_patterns_spec terms) as [_ Hw].
    destruct (compile_patterns terms) as [compiled warnings].
    cbn [snd] in *. rewrite Hw. apply in_map. apply filter_In.
    split; [exact Hin|]. unfold compiles. now rewrite (Hnone t Hin). }
  rewrite run_analysis_spec.
  destruct (mkdir os d) as [dir|]; [|discriminate].
  destruct (clear_old os output_filename dir) as [dir'|] eqn:Hclear; [|discriminate].
  apply clear_old_absent in Hclear. cbv zeta. intros _.
  destruct (open_ok os); cbn [written count disk dest results messages];
    rewrite ?Hrec; repeat split.
  - apply lookup_insert_eq.
  - intros t Hin. apply in_or_app. left. now apply Hwarn.
  - apply in_or_app. right. apply in_or_app. right. now left.
  - exact Hclear.
  - intros t Hin. apply in_or_app. left. now apply Hwarn.
  - apply in_or_app. right. right. now left.
Qed.

(** X9, at two patterns that the model rejects. *)
Lemma X9_no_pattern_compiles_witness :
  let res := Run.run_analysis os_ok example_disk ["[45"; "*"] "http.txt" true
                              None in
  written res = [] /\ count res = 0
  /\ dest (disk res) "http.txt" = Some []
  /\ (forall t, In t ["[45"; "*"] -> In (InvalidRegex t) (messages res))
  /\ In NoMatches (messages res).
Proof.
  apply (X9_no_pattern_compiles model os_ok example_disk ["[45"; "*"]
           "http.txt" None).
  - intros t [<-|[<-|[]]]; reflexivity.
  - reflexivity.
Defined.

(** X10. Running the same analysis again on the disk that its first run
    left changes nothing, when the old results file can be removed: the
    second run completes, leaves the same disk, and writes, counts and prints
    what the first did. *)
Theorem X10_running_again_changes_nothing (py : Library)
        (os : OS) (d : Disk) (terms : list string) (output_filename : string)
        (r : bool) (ignores : option (list string)) :
  let res1 := run_analysis os d terms output_filename r ignores in
  let res2 := run_analysis os (disk res1) terms output_filename r ignores in
  outcome res1 = Completed ->
  unlink_ok os = true ->
  outcome res2 = Completed
  /\ disk res2 = disk res1
  /\ written res2 = written res1 /\ count res2 = count res1
  /\ messages res2 = messages res1.
Proof.
  cbv zeta. intros Hdone Hunlink. rewrite (run_analysis_spec os d) in *.
  destruct (mkdir os d) as [dir|]; [|discriminate].
  destruct (clear_old os output_filename dir) as [dir'|] eqn:Hclear; [|discriminate].
  apply clear_old_absent in Hclear. cbv zeta in *.
  destruct (open_ok os) eqn:Hopen; cbn [disk written count messages].
  - rewrite run_analysis_spec. unfold mkdir, clear_old. cbn [results tree].
    rewrite lookup_insert_eq, Hunlink. cbv zeta. rewrite Hopen.
    cbn [outcome disk written count messages].
    now rewrite insert_delete_eq, insert_insert_eq.
  - rewrite run_analysis_spec. unfold mkdir, clear_old. cbn [results tree].
    rewrite Hclear. cbv zeta. rewrite Hopen. now repeat split.
Qed.

(** X10, at the custom search of the example, twice. *)
Lemma X10_running_again_changes_nothing_witness :
  let res1 := Run.run_custom os_ok example_disk ["error"] in
  let res2 := Run.run_custom os_ok (disk res1) ["error"] in
  outcome res2 = Completed
  /\ disk res2 = disk res1
  /\ written res2 = written res1 /\ count res2 = count res1
  /\ messages res2 = messages res1.
Proof.
  apply (X10_running_again_changes_nothing model os_ok example_disk ["error"]
           "custom_search_results.txt" false None); reflexivity.
Defined.



(** ** The menu *)

(** Induction that follows the loop of [main]: an iteration reads one line,
    or two. *)
Lemma two_step_induction {A : Type} (P : list A -> Prop) :
  P [] ->
  (forall x rest,
      P rest -> (forall y rest', rest = y :: rest' -> P rest') ->
      P (x :: rest)) ->
  forall l, P l.
Proof.
  intros Hnil Hcons l.
  assert (H : P l /\ forall y rest', l = y :: rest' -> P rest').
  { induction l as [|x rest [IH1 IH2]].
    - split; [exact Hnil|discriminate].
    - split; [now apply Hcons|]. now intros y rest' [= _ <-]. }
  exact (proj1 H).
Qed.

Section MenuFacts.

Context {py : Library}.
Variable strip : string -> string.

(** The custom terms are the stripped pieces that are not empty. *)
Lemma custom_terms_spec (choice term : string) :
  In term (custom_terms strip choice)
  <-> term <> ""
      /\ exists piece, In piece (split_comma choice) /\ term = strip piece.
Proof.
  unfold custom_terms. rewrite in_map_iff. split.
  - intros (piece & <- & Hin). apply filter_In in Hin as [Hin Ht].
    apply truthy_spec in Ht. split; [exact Ht|]. now exists piece.
  - intros (Hne & piece & Hin & ->). exists piece. split; [reflexivity|].
    apply filter_In. split; [exact Hin|]. now apply truthy_spec.
Qed.

Lemma analysis_in_table (key : string) (a : Analysis.t) :
  analysis key = Some a -> In (key, a) ANALYSES.
Proof.
  unfold analysis.
  destruct (find _ ANALYSES) as [[k a']|] eqn:E; [|discriminate].
  intros [= <-]. apply find_some in E as [Hin Hk].
  apply String.eqb_eq in Hk. simpl in Hk. now subst k.
Qed.

(** An invariant of the disk and a property of the steps, through a
    session. *)
Section Invariant.

Variable Inv : Disk -> Prop.
Variable Good : Step -> Prop.

Hypothesis Hcall :
  forall os d c,
    Inv d -> Menu_call strip c ->
    Inv (disk (perform os d c))
    /\ Good {| step_os := os; step_before := d; step_call := c;
               step_result := perform os d c |}.

Lemma run_one_invariant (os_at : nat -> OS) (n : nat) (d : Disk) (c : Call) :
  Inv d -> Menu_call strip c ->
  Inv (snd (fst (run_one os_at n d c)))
  /\ Forall Good (fst (fst (run_one os_at n d c))).
Proof.
  intros Hd Hc. destruct (Hcall (os_at n) d c Hd Hc) as [Hinv Hgood].
  unfold run_one. cbn [fst snd]. split; [exact Hinv|]. now repeat constructor.
Qed.

Lemma run_each_invariant (os_at : nat -> OS) (n : nat) (d : Disk)
      (configs : list Analysis.t) :
  Inv d ->
  (forall a, In a configs -> exists key, In (key, a) ANALYSES) ->
  Inv (snd (fst (run_each os_at n d configs)))
  /\ Forall Good (fst (fst (run_each os_at n d configs))).
Proof.
  revert n d. induction configs as [|a rest IH]; intros n d Hd Htable.
  - cbn. now split.
  - cbn [run_each].
    assert (Hc : Menu_call strip (config_call a)).
    { destruct (Htable a) as [key Hkey]; [now left|]. left. now exists key, a. }
    pose proof (run_one_invariant os_at n d (config_call a) Hd Hc) as [H1 H2].
    destruct (run_one os_at n d (config_call a)) as [[first d1] raised].
    cbn [fst snd] in H1, H2.
    destruct raised; [now split|].
    destruct (IH (S n) d1 H1) as [H3 H4].
    { intros a' Hin. apply Htable. now right. }
    destruct (run_each os_at (S n) d1 rest) as [[others d2] raised'].
    cbn [fst snd] in *. split; [exact H3|]. apply Forall_app. now split.
Qed.

Lemma main_invariant (os_at : nat -> OS) (n : nat) (d : Disk)
      (inputs : list string) :
  Inv d ->
  Inv (after (main strip os_at n d inputs))
  /\ Forall Good (steps (main strip os_at n d inputs)).
Proof.
  revert n d. induction inputs as [|line rest IH1 IH2] using two_step_induction;
    intros n d Hd.
  - cbn. now split.
  - cbn [main].
    destruct (negb (Str.truthy (strip line))); [now apply IH1|].
    destruct (String.eqb (lower (strip line)) "q"); [cbn; now split|].
    set (branch := if String.eqb (lower (strip line)) "a" then _ else _).
    assert (Hbranch : Inv (snd (fst branch)) /\ Forall Good (fst (fst branch))).
    { subst branch. destruct (String.eqb (lower (strip line)) "a").
      - apply run_each_invariant; [exact Hd|].
        intros a Hin. apply in_map_iff in Hin as ([key a'] & <- & Hin).
        now exists key.
      - destruct (analysis (strip line)) as [a|] eqn:Ha.
        + apply run_one_invariant; [exact Hd|].
          left. exists (strip line), a. split; [|reflexivity].
          now apply analysis_in_table.
        + destruct (custom_terms strip (strip line)) as [|t ts] eqn:Hterms.
          * cbn. now split.
          * apply run_one_invariant; [exact Hd|].
            right. exists (strip line). rewrite Hterms. now split. }
    destruct branch as [[done d'] raised]. cbn [fst snd] in Hbranch.
    destruct Hbranch as [Hd' Hdone].
    destruct raised; [cbn; now split|].
    destruct rest as [|enter rest']; [cbn; now split|].
    destruct (IH2 enter rest' eq_refl (n + length done) d' Hd') as [H1 H2].
    cbn [after steps]. split; [exact H1|]. apply Forall_app. now split.
Qed.

End Invariant.

End MenuFacts.

(** The table: its terms are not empty, its results files differ. *)
Lemma table_terms_not_empty (key : string) (a : Analysis.t) (t : string) :
  In (key, a) ANALYSES -> In t (Analysis.terms a) -> t <> "".
Proof.
  assert (H : forallb (fun entry => forallb Str.truthy (Analysis.terms (snd entry)))
                      ANALYSES = true) by reflexivity.
  intros Hin Ht. rewrite forallb_forall in H. specialize (H _ Hin).
  cbn [snd] in H. rewrite forallb_forall in H. now apply truthy_spec, H.
Qed.


Lemma menu_call_output `{py : Library} (strip : string -> string) (c : Call) :
  Menu_call strip c -> In (call_output c) menu_outputs.
Proof.
  intros [(key & a & Hin & ->)|(choice & _ & ->)]; [right|now left].
  cbn [call_output config_call].
  exact (in_map (fun entry => Analysis.output_file (snd entry)) _ _ Hin).
Qed.

Lemma menu_call_terms `{py : Library} (strip : string -> string) (c : Call)
      (t : string) :
  Menu_call strip c -> In t (call_terms c) -> t <> "".
Proof.
  intros [(key & a & Hin & ->)|(choice & _ & ->)] Ht.
  - exact (table_terms_not_empty key a t Hin Ht).
  - now apply custom_terms_spec in Ht as [Hne _].
Qed.

(** X12. Every run of a session is a call that the menu makes for an entry
    of the table or for the custom terms of a choice, with no empty term
    among its terms; it is [run_analysis] on the disk that the runs before it
    left, whose tree is the tree the session started with. *)
Theorem X12_menu_runs_have_no_empty_term :
  forall (py : Library) (strip : string -> string) (os_at : nat -> OS)
         (n : nat) (d : Disk) (inputs : list string),
    Forall
      (fun st =>
         Menu_call strip (step_call st)
         /\ Forall (fun t => t <> "") (call_terms (step_call st))
         /\ step_result st
            = perform (step_os st) (step_before st) (step_call st)
         /\ tree (step_before st) = tree d)
      (steps (main strip os_at n d inputs)).
Proof.
  intros py strip os_at n d inputs.
  apply (main_invariant strip (fun d' => tree d' = tree d)); [|reflexivity].
  intros os d' c Hd' Hc. split.
  - unfold perform. now rewrite run_tree.
  - cbn [step_call step_os step_before step_result]. repeat split; trivial.
    apply List.Forall_forall. intros t Ht.
    exact (menu_call_terms strip c t Hc Ht).
Qed.

(** X13. A session leaves the tree as it was and changes no file of the
    output directory but the results files of the table and of the custom
    search. *)
Theorem X13_session_changes_only_results_files (py : Library)
        (strip : string -> string) (os_at : nat -> OS) (n : nat) (d : Disk)
        (inputs : list string) (name : string) :
  ~ In name menu_outputs ->
  tree (after (main strip os_at n d inputs)) = tree d
  /\ dest (after (main strip os_at n d inputs)) name = dest d name.
Proof.
  intros Hname.
  apply (main_invariant strip
           (fun d' => tree d' = tree d /\ dest d' name = dest d name)
           (fun _ => True)); [|now split].
  intros os d' c [Htree Hdest] Hc. split; [|exact I].
  assert (Hne : name <> call_output c).
  { intros ->. apply Hname. exact (menu_call_output strip c Hc). }
  unfold perform.
  destruct (run_frame os d' (call_terms c) (call_output c) (call_is_regex c)
                      (call_ignores c) name Hne) as [H1 H2].
  split; congruence.
Qed.

(** X13, at the session of the example and the old log of the output
    directory. *)
Lemma X13_session_changes_only_results_files_witness :
  tree (after example_session) = tree example_disk
  /\ dest (after example_session) "old.log" = Some ["error"].
Proof.
  apply (X13_session_changes_only_results_files model Text.strip
           (fun _ => os_ok) 0 example_disk
           [" Error , ,status "; ""; "2"; ""; "Q"] "old.log").
  cbn. intuition discriminate.
Defined.






(** ** How a session ends *)

Section Endings.

Context {py : Library}.
Variable strip : string -> string.

Lemma stopped_app (done others : list Step) (raised : bool) :
  calm done -> stopped others raised -> stopped (done ++ others) raised.
Proof.
  unfold stopped, calm. intros Hdone. destruct raised.
  - intros (pre & st & -> & Hpre & Hst). exists (done ++ pre), st.
    rewrite app_assoc. repeat split; trivial. apply Forall_app. now split.
  - intros Hothers. apply Forall_app. now split.
Qed.

Lemma run_one_stopped (os_at : nat -> OS) (n : nat) (d : Disk) (c : Call) :
  stopped (fst (fst (run_one os_at n d c))) (snd (run_one os_at n d c)).
Proof.
  unfold run_one, stopped, calm. cbn [fst snd].
  destruct (outcome (perform (os_at n) d c)) eqn:E.
  - repeat constructor. cbn. congruence.
  - eexists [], _. repeat split; [constructor|exact E].
  - repeat constructor. cbn. congruence.
Qed.

Lemma run_each_stopped (os_at : nat -> OS) (n : nat) (d : Disk)
      (configs : list Analysis.t) :
  stopped (fst (fst (run_each os_at n d configs)))
          (snd (run_each os_at n d configs)).
Proof.
  revert n d. induction configs as [|a rest IH]; intros n d.
  - cbn. constructor.
  - cbn [run_each].
    pose proof (run_one_stopped os_at n d (config_call a)) as H1.
    destruct (run_one os_at n d (config_call a)) as [[first d1] raised].
    cbn [fst snd] in H1. destruct raised; [exact H1|].
    specialize (IH (S n) d1).
    destruct (run_each os_at (S n) d1 rest) as [[others d2] raised'].
    cbn [fst snd] in *. now apply stopped_app.
Qed.

(** A session ends with an exception exactly when its last run raised, and
    no run before the last raised. *)
Lemma main_stopped (os_at : nat -> OS) (n : nat) (d : Disk)
      (inputs : list string) :
  stopped (steps (main strip os_at n d inputs))
          (match exit (main strip os_at n d inputs) with
           | Exception => true
           | _ => false
           end).
Proof.
  revert n d. induction inputs as [|line rest IH1 IH2] using two_step_induction;
    intros n d.
  - cbn. constructor.
  - cbn [main].
    destruct (negb (Str.truthy (strip line))); [apply IH1|].
    destruct (String.eqb (lower (strip line)) "q"); [cbn; constructor|].
    set (branch := if String.eqb (lower (strip line)) "a" then _ else _).
    assert (Hbranch : stopped (fst (fst branch)) (snd branch)).
    { subst branch. destruct (String.eqb (lower (strip line)) "a").
      - apply run_each_stopped.
      - destruct (analysis (strip line)) as [a|]; [apply run_one_stopped|].
        destruct (custom_terms strip (strip line)) as [|t ts];
          [cbn; constructor|apply run_one_stopped]. }
    destruct branch as [[done d'] raised]. cbn [fst snd] in Hbranch.
    destruct raised; [exact Hbranch|].
    destruct rest as [|enter rest']; [exact Hbranch|].
    specialize (IH2 enter rest' eq_refl (n + length done) d').
    cbn [exit steps]. now apply stopped_app.
Qed.

(** A session ends by the choice to quit only if a line of the input is
    that choice. *)
Lemma main_quit (os_at : nat -> OS) (n : nat) (d : Disk) (inputs : list string) :
  exit (main strip os_at n d inputs) = Quit ->
  exists line, In line inputs /\ lower (strip line) = "q".
Proof.
  revert n d. induction inputs as [|line rest IH1 IH2] using two_step_induction;
    intros n d.
  - cbn. discriminate.
  - cbn [main].
    destruct (negb (Str.truthy (strip line))).
    { intros H. destruct (IH1 _ _ H) as (l & Hin & Hl). exists l.
      split; [now right|exact Hl]. }
    destruct (String.eqb (lower (strip line)) "q") eqn:Hq.
    { intros _. exists line. split; [now left|]. now apply String.eqb_eq. }
    set (branch := if String.eqb (lower (strip line)) "a" then _ else _).
    destruct branch as [[done d'] raised].
    destruct raised; [discriminate|].
    destruct rest as [|enter rest']; [discriminate|].
    cbn [exit]. intros H.
    destruct (IH2 enter rest' eq_refl _ _ H) as (l & Hin & Hl).
    exists l. split; [right; now right|exact Hl].
Qed.

End Endings.

(** X16. How a session ends.  An exception of a run leaves [main] at once:
    the session ends with an exception iff its last run raised, and a run
    that raised is the last one.  The session ends by the choice to quit only
    if some line of the input, stripped and lowercased, is [q]; otherwise it
    ends by an exception or because the input is used up. *)
Theorem X16_how_a_session_ends :
  forall (py : Library) (strip : string -> string) (os_at : nat -> OS)
         (n : nat) (d : Disk) (inputs : list string),
    let s := main strip os_at n d inputs in
    (exit s = Exception
     <-> exists pre st,
           steps s = pre ++ [st] /\ outcome (step_result st) = Raised)
    /\ (forall pre st post,
          steps s = pre ++ st :: post ->
          outcome (step_result st) = Raised -> post = [])
    /\ (exit s = Quit ->
        exists line, In line inputs /\ lower (strip line) = "q").
Proof.
  intros py strip os_at n d inputs. cbv zeta.
  pose proof (main_stopped strip os_at n d inputs) as Hs.
  assert (Hlast : forall (l pre : list Step) st post,
            calm l -> l = pre ++ st :: post ->
            outcome (step_result st) <> Raised).
  { intros l pre st post Hcalm ->. unfold calm in Hcalm.
    apply Forall_app in Hcalm as [_ Hcalm]. now inversion Hcalm. }
  split; [|split].
  - split.
    + intros Hexit. rewrite Hexit in Hs.
      destruct Hs as (pre & st & Heq & _ & Hst). now exists pre, st.
    + intros (pre & st & Heq & Hst).
      destruct (exit (main strip os_at n d inputs)); try reflexivity;
        exfalso; exact (Hlast _ pre st [] Hs Heq Hst).
  - intros pre st post Heq Hst.
    destruct (exit (main strip os_at n d inputs));
      try (exfalso; exact (Hlast _ pre st post Hs Heq Hst)).
    destruct Hs as (pre' & st' & Heq' & Hcalm & _).
    destruct post as [|y post] using rev_ind; [reflexivity|]. exfalso.
    rewrite Heq' in Heq.
    change (pre ++ st :: post ++ [y]) with (pre ++ (st :: post) ++ [y]) in Heq.
    rewrite app_assoc in Heq. apply app_inj_tail in Heq as [Hpre _].
    exact (Hlast _ pre st post Hcalm Hpre Hst).
  - apply main_quit.
Qed.

(** X16, at the session of the example, which ends by the choice to quit. *)
Lemma X16_how_a_session_ends_witness :
  exit example_session = Quit
  /\ exists line,
       In line [" Error , ,status "; ""; "2"; ""; "Q"]
       /\ Py.lower (Text.strip line) = "q".
Proof.
  split; [reflexivity|].
  apply (proj2 (proj2 (X16_how_a_session_ends model Text.strip (fun _ => os_ok)
                         0 example_disk
                         [" Error , ,status "; ""; "2"; ""; "Q"]))).
  reflexivity.
Defined.

(** X17. An ignore term that is compared as the empty string (the empty
    string itself in regex mode, a term whose lowercased form is empty in
    literal mode) is contained in every line: the run writes nothing and
    counts nothing, whatever the terms and the tree. *)
Theorem X17_empty_ignore_term_silences_the_run (py : Library)
        (os : OS) (d : Disk) (terms : list string) (output_filename : string)
        (r : bool) (ignores : list string) (ignore : string) :
  let res := run_analysis os d terms output_filename r (Some ignores) in
  In ignore ignores ->
  (if r then ignore else lower ignore) = "" ->
  written res = [] /\ count res = 0.
Proof.
  cbv zeta. intros Hin Hempty.
  assert (Hrec : forall walk, records (prepared r terms ignores) walk = []).
  { intros walk. unfold records.
    induction (lines_read walk) as [|entry rest IH]; [reflexivity|].
    cbn [flat_map]. rewrite IH, app_nil_r. unfold record_of.
    destruct (evaluate (prepared r terms ignores) (snd entry)) as [t|] eqn:E;
      [|reflexivity].
    apply evaluate_Some in E as (_ & _ & Hno). exfalso. apply Hno.
    exists ignore. split; [exact Hin|]. unfold text_form at 1. rewrite Hempty.
    now exists "", (text_form r (snd entry)). }
  rewrite run_analysis_spec.
  destruct (mkdir os d) as [dir|]; [|now split].
  destruct (clear_old os output_filename dir) as [dir'|]; [|now split].
  cbv zeta. destruct (open_ok os); cbn [written count default];
    rewrite ?Hrec; now split.
Qed.

(** X17, at the general terms with an empty ignore term. *)
Lemma X17_empty_ignore_term_silences_the_run_witness :
  let res := Run.run_analysis os_ok example_disk ["fail"; "error"; "unable"]
                              "general_errors.txt" false (Some ["timeout"; ""]) in
  written res = [] /\ count res = 0.
Proof.
  apply (X17_empty_ignore_term_silences_the_run model os_ok example_disk
           ["fail"; "error"; "unable"] "general_errors.txt" false
           ["timeout"; ""] "").
  - simpl. right. now left.
  - reflexivity.
Defined.

(** ** The run with its faults *)

Section FullFacts.

Context {py : Library} {faults : Faults}.

(** Step 3 raises iff [re.compile] raises on one of the terms. *)
Lemma full_compile_raised (terms : list string) :
  snd (Full.compile_patterns terms) = existsb re_raises terms.
Proof.
  induction terms as [|p rest IH]; [reflexivity|].
  cbn [Full.compile_patterns existsb].
  destruct (re_raises p); [reflexivity|].
  destruct (Full.compile_patterns rest) as [[compiled warnings] raised].
  cbn [snd] in IH. subst raised. now destruct (re_compile p).
Qed.

Lemma full_compile_agrees (terms : list string) :
  existsb re_raises terms = false ->
  fst (Full.compile_patterns terms) = compile_patterns terms.
Proof.
  induction terms as [|p rest IH]; [reflexivity|].
  cbn [Full.compile_patterns compile_patterns existsb].
  destruct (re_raises p); [discriminate|]. intros H. specialize (IH H).
  destruct (Full.compile_patterns rest) as [[compiled warnings] raised].
  cbn [fst] in IH. rewrite <- IH. now destruct (re_compile p).
Qed.

(** The warnings printed before step 3 ends, one way or the other. *)
Lemma full_compile_warnings (terms : list string) (msg : Message) :
  In msg (snd (fst (Full.compile_patterns terms))) ->
  exists t, msg = InvalidRegex t /\ In t terms /\ re_compile t = None.
Proof.
  induction terms as [|p rest IH]; [intros []|].
  cbn [Full.compile_patterns].
  destruct (re_raises p); [intros []|].
  destruct (Full.compile_patterns rest) as [[compiled warnings] raised].
  cbn [fst snd] in IH.
  destruct (re_compile p) eqn:Hp; cbn [fst snd].
  - intros H. destruct (IH H) as (t & -> & Hin & Hnone).
    exists t. repeat split; [now right|exact Hnone].
  - intros [<-|H].
    + exists p. repeat split; [now left|exact Hp].
    + destruct (IH H) as (t & -> & Hin & Hnone).
      exists t. repeat split; [now right|exact Hnone].
Qed.

Lemma full_preprocess_raised (r : bool) (terms ignores : list string) :
  snd (Full.preprocess r terms ignores) = r && existsb re_raises terms.
Proof.
  unfold Full.preprocess. destruct r; [|reflexivity].
  rewrite <- full_compile_raised.
  now destruct (Full.compile_patterns terms) as [[compiled warnings] raised].
Qed.

Lemma full_preprocess_agrees (r : bool) (terms ignores : list string) :
  r && existsb re_raises terms = false ->
  fst (Full.preprocess r terms ignores) = preprocess r terms ignores.
Proof.
  unfold Full.preprocess, preprocess. destruct r; [|reflexivity].
  intros H. apply full_compile_agrees in H.
  destruct (Full.compile_patterns terms) as [[compiled warnings] raised].
  cbn [fst] in H. rewrite <- H. reflexivity.
Qed.

Lemma full_preprocess_warnings (r : bool) (terms ignores : list string)
      (msg : Message) :
  In msg (snd (fst (Full.preprocess r terms ignores))) ->
  exists t, msg = InvalidRegex t /\ In t terms /\ re_compile t = None.
Proof.
  unfold Full.preprocess. destruct r; [|intros []].
  pose proof (full_compile_warnings terms msg) as H.
  now destruct (Full.compile_patterns terms) as [[compiled warnings] raised].
Qed.

(** The output directory is walked and skipped. *)
Lemma full_scan_os_walk (m : Prepared) (d : Disk) (st : Scan) :
  Full.scan m (os_walk d) st = Full.scan m (tree d) st.
Proof.
  unfold Full.scan, os_walk. rewrite fold_left_app.
  destruct (results d); reflexivity.
Qed.

(** The counter never falls behind the sink, and the complaints of the
    lines of a file are those before it. *)
Lemma full_process_line_counts (m : Prepared) (file_path : string)
      (st : Scan) (line : string) :
  let st' := fst (Full.process_line m file_path st line) in
  length (out_file st') + found_matches st
  <= found_matches st' + length (out_file st)
  /\ complaints st' = complaints st.
Proof.
  cbv zeta. unfold Full.process_line.
  destruct (evaluate m line) as [matched_term|]; [|cbn [fst]; split; [lia|reflexivity]].
  destruct (write_ok _ _); cbn [fst found_matches out_file complaints];
    rewrite ?length_app; cbn [length]; split; (lia || reflexivity).
Qed.

Lemma full_read_lines_counts (m : Prepared) (file_path : string)
      (ls : list string) (st : Scan) :
  let st' := fst (Full.read_lines m file_path ls st) in
  length (out_file st') + found_matches st
  <= found_matches st' + length (out_file st)
  /\ complaints st' = complaints st.
Proof.
  cbv zeta. revert st. induction ls as [|line rest IH]; intros st.
  - cbn [Full.read_lines fst]. split; [lia|reflexivity].
  - cbn [Full.read_lines].
    pose proof (full_process_line_counts m file_path st line) as [Hn Hc].
    cbv zeta in Hn, Hc.
    destruct (Full.process_line m file_path st line) as [st1 raised].
    cbn [fst] in Hn, Hc. destruct raised; cbn [fst].
    + split; [exact Hn|exact Hc].
    + destruct (IH st1) as [Hn' Hc']. split; [lia|congruence].
Qed.

Lemma full_scan_file_counts (m : Prepared) (dirpath filename : string)
      (f : File) (st : Scan) :
  let st' := Full.scan_file m dirpath filename f st in
  length (out_file st') + found_matches st
  <= found_matches st' + length (out_file st)
  /\ forall msg, In msg (complaints st') ->
       In msg (complaints st) \/ msg = CannotReadFile dirpath filename.
Proof.
  cbv zeta. unfold Full.scan_file.
  match goal with
  | |- context [Full.read_lines m ?fp ?ls ?st0] =>
      pose proof (full_read_lines_counts m fp ls st0) as [Hn Hc];
      cbv zeta in Hn, Hc;
      destruct (Full.read_lines m fp ls st0) as [st1 raised]
  end.
  cbn [fst found_matches out_file complaints] in Hn, Hc.
  destruct (raised || fails f); cbn [found_matches out_file complaints].
  - split; [exact Hn|]. intros msg Hin. rewrite Hc in Hin.
    apply in_app_or in Hin as [Hin|[<-|[]]]; [now left|now right].
  - split; [exact Hn|]. intros msg Hin. rewrite Hc in Hin. now left.
Qed.

Lemma full_scan_dir_counts (m : Prepared) (dirpath : string)
      (filenames : list (string * File)) (st : Scan) :
  let st' := Full.scan_dir m dirpath filenames st in
  length (out_file st') + found_matches st
  <= found_matches st' + length (out_file st)
  /\ forall msg, In msg (complaints st') ->
       In msg (complaints st) \/ exists dp fn, msg = CannotReadFile dp fn.
Proof.
  cbv zeta. unfold Full.scan_dir. revert st.
  induction filenames as [|[filename f] rest IH]; intros st.
  - cbn [fold_left]. split; [lia|]. intros msg Hin. now left.
  - cbn [fold_left].
    destruct (Str.endswith_any filename [".log"; ".json"]); [|apply IH].
    destruct (IH (Full.scan_file m dirpath filename f st)) as [Hn Hc].
    destruct (full_scan_file_counts m dirpath filename f st) as [Hn1 Hc1].
    cbv zeta in Hn1, Hc1. split; [lia|].
    intros msg Hin. destruct (Hc msg Hin) as [H|H]; [|now right].
    destruct (Hc1 msg H) as [H1| ->]; [now left|right; eauto].
Qed.

Lemma full_scan_counts (m : Prepared) (walk : Walk) (st : Scan) :
  let st' := Full.scan m walk st in
  length (out_file st') + found_matches st
  <= found_matches st' + length (out_file st)
  /\ forall msg, In msg (complaints st') ->
       In msg (complaints st) \/ exists dp fn, msg = CannotReadFile dp fn.
Proof.
  cbv zeta. unfold Full.scan. revert st.
  induction walk as [|[dirpath filenames] rest IH]; intros st.
  - cbn [fold_left]. split; [lia|]. intros msg Hin. now left.
  - cbn [fold_left].
    destruct (Str.contains OUTPUT_DIR_NAME dirpath); [apply IH|].
    destruct (IH (Full.scan_dir m dirpath filenames st)) as [Hn Hc].
    destruct (full_scan_dir_counts m dirpath filenames st) as [Hn1 Hc1].
    cbv zeta in Hn1, Hc1. split; [lia|].
    intros msg Hin. destruct (Hc msg Hin) as [H|H]; [|now right].
    exact (Hc1 msg H).
Qed.

(** When every write returns, the scan is the scan of [run_analysis]. *)
Section WritesReturn.

Hypothesis writes_return : forall k record, write_ok k record = true.

Lemma full_process_line_agrees (m : Prepared) (file_path : string)
      (st : Scan) (line : string) :
  Full.process_line m file_path st line
  = (process_line m file_path st line, false).
Proof.
  unfold Full.process_line, process_line.
  destruct (evaluate m line); [|reflexivity]. now rewrite writes_return.
Qed.

Lemma full_read_lines_agrees (m : Prepared) (file_path : string)
      (ls : list string) (st : Scan) :
  Full.read_lines m file_path ls st
  = (fold_left (process_line m file_path) ls st, false).
Proof.
  revert st. induction ls as [|line rest IH]; intros st; [reflexivity|].
  cbn [Full.read_lines fold_left]. rewrite full_process_line_agrees. apply IH.
Qed.

Lemma full_scan_file_agrees (m : Prepared) (dirpath filename : string)
      (f : File) (st : Scan) :
  Full.scan_file m dirpath filename f st = scan_file m dirpath filename f st.
Proof.
  unfold Full.scan_file, scan_file. now rewrite full_read_lines_agrees.
Qed.

Lemma full_scan_dir_agrees (m : Prepared) (dirpath : string)
      (filenames : list (string * File)) (st : Scan) :
  Full.scan_dir m dirpath filenames st = scan_dir m dirpath filenames st.
Proof.
  unfold Full.scan_dir, scan_dir. revert st.
  induction filenames as [|[filename f] rest IH]; intros st; [reflexivity|].
  cbn [fold_left]. now rewrite full_scan_file_agrees, IH.
Qed.

Lemma full_scan_agrees (m : Prepared) (walk : Walk) (st : Scan) :
  Full.scan m walk st = scan m walk st.
Proof.
  unfold Full.scan, scan. revert st.
  induction walk as [|[dirpath filenames] rest IH]; intros st; [reflexivity|].
  cbn [fold_left]. rewrite IH.
  destruct (Str.contains OUTPUT_DIR_NAME dirpath); [reflexivity|].
  unfold scan_dir at 2. now rewrite <- full_scan_dir_agrees.
Qed.

End WritesReturn.

(** The run with its faults, in closed form. *)
Lemma full_run_analysis_spec (os : OS) (d : Disk) (terms : list string)
      (output_filename : string) (r : bool) (ignores : option (list string)) :
  Full.run_analysis os d terms output_filename r ignores
  = match mkdir os d with
    | None =>
        {| outcome := ReturnedEarly; disk := d;
           messages := [CannotCreateOutputDir];
           scanned := []; written := []; count := 0 |}
    | Some dir =>
        match clear_old os output_filename dir with
        | None =>
            {| outcome := Raised;
               disk := {| tree := tree d; results := Some dir |};
               messages := []; scanned := []; written := []; count := 0 |}
        | Some dir' =>
            if r && existsb re_raises terms then
              {| outcome := Raised;
                 disk := {| tree := tree d; results := Some dir' |};
                 messages := snd (fst (Full.preprocess r terms (default [] ignores)));
                 scanned := []; written := []; count := 0 |}
            else
              let m := prepared r terms (default [] ignores) in
              let warnings := snd (preprocess r terms (default [] ignores)) in
              if open_ok os then
                let st := Full.scan m (tree d) fresh in
                {| outcome := Completed;
                   disk := {| tree := tree d;
                              results := Some (<[output_filename := out_file st]> dir') |};
                   messages := warnings ++ complaints st
                               ++ [summary (found_matches st)];
                   scanned := opened st;
                   written := out_file st;
                   count := found_matches st |}
              else
                {| outcome := Completed;
                   disk := {| tree := tree d; results := Some dir' |};
                   messages := warnings ++ [CannotWriteOutput; summary 0];
                   scanned := []; written := []; count := 0 |}
        end
    end.
Proof.
  unfold Full.run_analysis, prepared.
  destruct (mkdir os d) as [dir|]; [|reflexivity].
  destruct (clear_old os output_filename dir) as [dir'|] eqn:Hclear; [|reflexivity].
  apply clear_old_absent in Hclear.
  pose proof (full_preprocess_raised r terms (default [] ignores)) as Hraised.
  pose proof (full_preprocess_agrees r terms (default [] ignores)) as Hagree.
  destruct (Full.preprocess r terms (default [] ignores)) as [[m warnings] raised].
  cbn [fst snd] in *. subst raised.
  destruct (r && existsb re_raises terms); [reflexivity|].
  rewrite <- (Hagree eq_refl). cbn [fst snd]. cbv zeta.
  destruct (open_ok os); [|reflexivity].
  rewrite full_scan_os_walk, Hclear. reflexivity.
Qed.

(** Without a fault the run is [run_analysis]. *)
Lemma full_run_without_faults (os : OS) (d : Disk) (terms : list string)
      (output_filename : string) (r : bool) (ignores : option (list string)) :
  r && existsb re_raises terms = false ->
  (forall k record, write_ok k record = true) ->
  Full.run_analysis os d terms output_filename r ignores
  = run_analysis os d terms output_filename r ignores.
Proof.
  intros Hcompile Hwrite.
  rewrite full_run_analysis_spec, run_analysis_spec, Hcompile.
  destruct (mkdir os d) as [dir|]; [|reflexivity].
  destruct (clear_old os output_filename dir) as [dir'|]; [|reflexivity].
  cbv zeta. destruct (open_ok os); [|reflexivity].
  rewrite (full_scan_agrees Hwrite), scan_spec.
  unfold advance, fresh. cbn [found_matches out_file opened complaints app].
  reflexivity.
Qed.

(** A run that gets past step 1 does not return early, and leaves an
    output directory. *)
Lemma full_run_past_mkdir (os : OS) (d : Disk) (terms : list string)
      (output_filename : string) (r : bool) (ignores : option (list string))
      (dir : gmap string (list string)) :
  let res := Full.run_analysis os d terms output_filename r ignores in
  mkdir os d = Some dir ->
  outcome res <> ReturnedEarly /\ is_Some (results (disk res)).
Proof.
  cbv zeta. intros Hmk. rewrite full_run_analysis_spec, Hmk.
  destruct (clear_old os output_filename dir) as [dir'|];
    [destruct (r && existsb re_raises terms);
     [|cbv zeta; destruct (open_ok os)]|];
    cbn [outcome disk results]; split; (discriminate || eauto).
Qed.

(** The scan reads the state of step 3 through [evaluate] alone. *)
Section SameEvaluation.

Variables m m' : Prepared.

Hypothesis same : forall line, evaluate m line = evaluate m' line.

Lemma full_read_lines_ext (file_path : string) (ls : list string) (st : Scan) :
  Full.read_lines m file_path ls st = Full.read_lines m' file_path ls st.
Proof.
  revert st. induction ls as [|line rest IH]; intros st; [reflexivity|].
  cbn [Full.read_lines]. unfold Full.process_line. rewrite same.
  destruct (evaluate m' line) as [matched_term|]; [|apply IH].
  destruct (write_ok _ _); [apply IH|reflexivity].
Qed.

Lemma full_scan_dir_ext (dirpath : string) (filenames : list (string * File))
      (st : Scan) :
  Full.scan_dir m dirpath filenames st = Full.scan_dir m' dirpath filenames st.
Proof.
  unfold Full.scan_dir. revert st.
  induction filenames as [|[filename f] rest IH]; intros st; [reflexivity|].
  cbn [fold_left]. rewrite IH. unfold Full.scan_file.
  now rewrite full_read_lines_ext.
Qed.

Lemma full_scan_ext (walk : Walk) (st : Scan) :
  Full.scan m walk st = Full.scan m' walk st.
Proof.
  unfold Full.scan. revert st.
  induction walk as [|[dirpath filenames] rest IH]; intros st; [reflexivity|].
  cbn [fold_left]. rewrite IH.
  destruct (Str.contains OUTPUT_DIR_NAME dirpath); [reflexivity|].
  f_equal. apply full_scan_dir_ext.
Qed.

End SameEvaluation.

(** No term of a sublist raises when no term of the list does. *)
Lemma no_raise_filter (keep : string -> bool) (terms : list string) :
  existsb re_raises terms = false ->
  existsb re_raises (List.filter keep terms) = false.
Proof.
  induction terms as [|t rest IH]; [reflexivity|].
  cbn [existsb List.filter]. intros H. apply orb_false_iff in H as [Ht Hrest].
  destruct (keep t); cbn [existsb]; rewrite ?Ht; now apply IH.
Qed.

End FullFacts.

(** C6, the code against the claim.  [except re.error] catches one of the
    exceptions of [re.compile]: a term on which [re.compile] raises another
    one ends the run in step 3, after the old results file has been removed
    and before the sink is opened, so that no file is read, nothing is
    written, no summary is printed and the results file is gone.  In the
    example the first term gets its warning, the second one has a repetition
    number that [re.compile] refuses with [OverflowError], and the third one
    is never compiled. *)
Theorem C6_compile_exception_aborts_the_run :
  (forall (py : Library) (faults : Faults) (os : OS) (d : Disk)
          (terms : list string) (output_filename : string)
          (ignores : option (list string))
          (dir dir' : gmap string (list string)) (t : string),
      let res := Full.run_analysis os d terms output_filename true ignores in
      mkdir os d = Some dir ->
      clear_old os output_filename dir = Some dir' ->
      In t terms -> re_raises t = true ->
      outcome res = Raised
      /\ dest (disk res) output_filename = None
      /\ scanned res = [] /\ written res = []
      /\ forall n, ~ In (summary n) (messages res))
  /\ (let res := FullRun.run_analysis os_ok example_disk
                   ["x("; overflowing_pattern; "error"]
                   "custom_search_results.txt" true None in
      Limits.raises overflowing_pattern = true
      /\ dest example_disk "custom_search_results.txt"
         = Some ["[old.log] [Matched: 'x'] stale"]
      /\ outcome res = Raised
      /\ messages res = [InvalidRegex "x("]
      /\ dest (disk res) "custom_search_results.txt" = None
      /\ scanned res = [] /\ written res = []).
Proof.
  split.
  - intros py faults os d terms output_filename ignores dir dir' t res
           Hmk Hclear Hin Hraises.
    subst res. rewrite full_run_analysis_spec, Hmk, Hclear.
    assert (Hex : existsb re_raises terms = true)
      by (apply existsb_exists; eauto).
    rewrite Hex. cbn [andb outcome disk dest results scanned written messages].
    repeat split.
    + now apply clear_old_absent in Hclear.
    + intros n H. apply full_preprocess_warnings in H as (t' & H & _).
      unfold summary in H. destruct (0 <? n)%nat; discriminate.
  - vm_compute. repeat split.
Qed.

(** C6, the code against the claim, at the example. *)
Lemma C6_compile_exception_aborts_the_run_witness :
  let res := FullRun.run_analysis os_ok example_disk
               ["x("; overflowing_pattern; "error"]
               "custom_search_results.txt" true None in
  outcome res = Raised
  /\ dest (disk res) "custom_search_results.txt" = None
  /\ scanned res = [] /\ written res = []
  /\ forall n, ~ In (summary n) (messages res).
Proof.
  apply (proj1 C6_compile_exception_aborts_the_run model faults_model os_ok
           example_disk ["x("; overflowing_pattern; "error"]
           "custom_search_results.txt" None example_results
           (delete "custom_search_results.txt" example_results)
           overflowing_pattern).
  - reflexivity.
  - vm_compute. reflexivity.
  - right. now left.
  - vm_compute. reflexivity.
Defined.

(** C8, the code against the claim.  The counter is incremented before the
    record is written, and [except Exception] takes a write that raises for
    a file that could not be read.  A custom search for [error] over a log
    whose name is not valid UTF-8: the record of its first line cannot be
    encoded, the line has been counted by then, the rest of the file is
    skipped, and the walk goes on.  Three lines of the tree match and are
    not ignored, the summary says two, and one record is in the results
    file. *)
Theorem C8_count_exceeds_records_when_a_write_raises :
  let res := FullRun.run_custom os_ok latin1_disk ["error"] in
  let m := Run.prepared false ["error"] [] in
  Utf8.valid (format_record latin1_name "error" "disk error") = false
  /\ length (List.filter (fun entry => Run.matched_and_kept m (snd entry))
                         (lines_read (tree latin1_disk))) = 3
  /\ outcome res = Completed
  /\ scanned res = [(".", latin1_name); (".", "z.log")]
  /\ count res = 2
  /\ messages res = [CannotReadFile "." latin1_name; Found 2]
  /\ written res = ["[z.log] [Matched: 'error'] late error"]
  /\ dest (disk res) "custom_search_results.txt" = Some (written res)
  /\ length (written res) < count res.
Proof. vm_compute. repeat split; lia. Qed.






(** X3. A run returns early exactly when the output directory is missing
    and cannot be created, whatever it searches for and whatever else may
    fail.  It then leaves the disk as it was, opens no file, writes nothing,
    and prints the error about the directory and no summary.  A run that
    does not return early leaves an output directory behind. *)
Theorem X3_early_return_is_the_directory_failure :
  forall (py : Library) (faults : Faults) (os : OS) (d : Disk)
         (terms : list string) (output_filename : string) (r : bool)
         (ignores : option (list string)),
    let res := Full.run_analysis os d terms output_filename r ignores in
    (outcome res = ReturnedEarly <-> results d = None /\ mkdir_ok os = false)
    /\ (outcome res = ReturnedEarly ->
        disk res = d /\ In CannotCreateOutputDir (messages res)
        /\ scanned res = [] /\ written res = []
        /\ forall n, ~ In (summary n) (messages res))
    /\ (outcome res <> ReturnedEarly -> is_Some (results (disk res))).
Proof.
  intros py faults os d terms output_filename r ignores. cbv zeta.
  destruct (mkdir os d) as [dir|] eqn:Hmk.
  - destruct (full_run_past_mkdir os d terms output_filename r ignores dir Hmk)
      as [Hlate Hdir].
    split; [|split].
    + split; [intros H; contradiction|]. intros [Hnone Hfails].
      unfold mkdir in Hmk. rewrite Hnone, Hfails in Hmk. discriminate.
    + intros H. contradiction.
    + intros _. exact Hdir.
  - rewrite full_run_analysis_spec, Hmk.
    cbn [outcome disk messages scanned written].
    split; [|split].
    + split; [|reflexivity]. intros _. unfold mkdir in Hmk.
      destruct (results d); [discriminate|].
      now destruct (mkdir_ok os).
    + intros _. split; [reflexivity|]. split; [now left|].
      split; [reflexivity|]. split; [reflexivity|].
      intros n [H|[]]. unfold summary in H.
      destruct (0 <? n)%nat; discriminate.
    + intros H. now contradiction H.
Qed.

(** X3, at a disk without output directory that cannot get one. *)
Lemma X3_early_return_is_the_directory_failure_witness :
  let res := FullRun.run_custom os_mkdir_fails one_line_disk ["x"] in
  disk res = one_line_disk /\ In CannotCreateOutputDir (messages res)
  /\ scanned res = [] /\ written res = []
  /\ forall n, ~ In (summary n) (messages res).
Proof.
  apply (proj1 (proj2 (X3_early_return_is_the_directory_failure
                         model faults_model os_mkdir_fails one_line_disk
                         ["x"] "custom_search_results.txt" false None))).
  reflexivity.
Defined.

(** X5. The summary reports the counter: a run says that nothing was found
    exactly when it completes with the counter at zero, and otherwise its
    summary gives the counter; a run that does not complete prints no
    summary.  The counter is never less than the number of records written,
    and it is that number when every write returns. *)
Theorem X5_summary_reports_the_counter :
  forall (py : Library) (faults : Faults) (os : OS) (d : Disk)
         (terms : list string) (output_filename : string) (r : bool)
         (ignores : option (list string)),
    let res := Full.run_analysis os d terms output_filename r ignores in
    (In NoMatches (messages res) <-> outcome res = Completed /\ count res = 0)
    /\ (forall n, In (Found n) (messages res)
                  <-> outcome res = Completed /\ n = count res /\ 0 < n)
    /\ length (written res) <= count res
    /\ ((forall k record, write_ok k record = true) ->
        count res = length (written res)).
Proof.
  intros py faults os d terms output_filename r ignores. cbv zeta.
  assert (Hw : forall msg, msg = NoMatches \/ (exists n, msg = Found n) ->
                 ~ In msg (snd (preprocess r terms (default [] ignores)))).
  { intros msg Hmsg H.
    apply warnings_are_invalid_regex in H as (t & -> & _).
    destruct Hmsg as [|[n ?]]; discriminate. }
  assert (Hw' : forall msg, msg = NoMatches \/ (exists n, msg = Found n) ->
                  ~ In msg (snd (fst (Full.preprocess r terms (default [] ignores))))).
  { intros msg Hmsg H.
    apply full_preprocess_warnings in H as (t & -> & _).
    destruct Hmsg as [|[n ?]]; discriminate. }
  rewrite full_run_analysis_spec.
  destruct (mkdir os d) as [dir|]; cbn [outcome written messages count].
  2: { split; [|split; [intros n|split; [cbn; lia|reflexivity]]];
       (split; [intros [H|[]]; discriminate|intros [[=] _]]). }
  destruct (clear_old os output_filename dir) as [dir'|];
    cbn [outcome written messages count].
  2: { split; [|split; [intros n|split; [cbn; lia|reflexivity]]];
       (split; [intros []|intros [[=] _]]). }
  destruct (r && existsb re_raises terms); cbn [outcome written messages count].
  { split; [|split; [intros n|split; [cbn; lia|reflexivity]]];
      (split; [|intros [[=] _]]); intros H; exfalso;
      (eapply Hw'; [|exact H]); eauto. }
  cbv zeta. destruct (open_ok os); cbn [outcome written messages count].
  - set (st := Full.scan _ (tree d) fresh).
    pose proof (full_scan_counts (prepared r terms (default [] ignores))
                  (tree d) fresh) as [Hn Hc].
    cbv zeta in Hn, Hc. fold st in Hn, Hc.
    cbn [fresh found_matches out_file complaints length] in Hn, Hc.
    assert (Hcs : forall msg, msg = NoMatches \/ (exists n, msg = Found n) ->
                    ~ In msg (complaints st)).
    { intros msg Hmsg H. destruct (Hc msg H) as [[]|(dp & fn & ->)].
      destruct Hmsg as [|[n ?]]; discriminate. }
    unfold summary. split; [|split; [intros n|split]].
    + rewrite !in_app_iff. split.
      * intros [H|[H|[H|[]]]].
        -- exfalso. eapply Hw; [|exact H]. now left.
        -- exfalso. eapply Hcs; [|exact H]. now left.
        -- split; [reflexivity|].
           destruct (0 <? found_matches st)%nat eqn:E; [discriminate|].
           apply Nat.ltb_ge in E. lia.
      * intros [_ ->]. right. right. now left.
    + rewrite !in_app_iff. split.
      * intros [H|[H|[H|[]]]].
        -- exfalso. eapply Hw; [|exact H]. eauto.
        -- exfalso. eapply Hcs; [|exact H]. eauto.
        -- destruct (0 <? found_matches st)%nat eqn:E; [|discriminate].
           injection H as <-. apply Nat.ltb_lt in E. now repeat split.
      * intros (_ & -> & Hpos). right. right. left.
        apply Nat.ltb_lt in Hpos. now rewrite Hpos.
    + lia.
    + intros Hwrite. subst st. rewrite (full_scan_agrees Hwrite), scan_spec.
      cbn [advance fresh found_matches out_file app]. reflexivity.
  - split; [|split; [intros n|split; [cbn; lia|reflexivity]]];
      rewrite in_app_iff.
    + split; [now intros _|]. intros _. right. right. now left.
    + split.
      * intros [H|[H|[H|[]]]]; try discriminate.
        exfalso. eapply Hw; [|exact H]. eauto.
      * intros (_ & -> & Hpos). lia.
Qed.

(** X5, at the custom search over the log whose name cannot be written:
    the summary says two and one record is written. *)
Lemma X5_summary_reports_the_counter_witness :
  let res := FullRun.run_custom os_ok latin1_disk ["error"] in
  (In (Found 2) (messages res)
   <-> outcome res = Completed /\ 2 = count res /\ 0 < 2)
  /\ length (written res) <= count res
  /\ length (written res) = 1 /\ count res = 2.
Proof.
  pose proof (X5_summary_reports_the_counter model faults_model os_ok
                latin1_disk ["error"] "custom_search_results.txt" false None)
    as (_ & Hfound & Hle & _).
  split; [exact (Hfound 2)|]. split; [exact Hle|].
  split; vm_compute; reflexivity.
Defined.

(** X18. In regex mode, when [re.compile] raises nothing but [re.error]:
    the compiled patterns are the terms that compile, in their order, and
    each other term gets its warning; the outcome of the run, the records it
    writes, its count and the disk it leaves are those of the run without
    the terms that do not compile; and a run that completes has printed the
    warning of every such term. *)
Theorem X18_patterns_with_re_error_are_skipped (py : Library) (faults : Faults)
        (os : OS) (d : Disk) (terms : list string) (output_filename : string)
        (ignores : option (list string)) :
  let res := Full.run_analysis os d terms output_filename true ignores in
  let res' := Full.run_analysis os d (List.filter compiles terms)
                                output_filename true ignores in
  existsb re_raises terms = false ->
  map pattern (fst (fst (Full.compile_patterns terms)))
  = List.filter compiles terms
  /\ snd (fst (Full.compile_patterns terms))
     = map InvalidRegex (List.filter (fun t => negb (compiles t)) terms)
  /\ outcome res = outcome res' /\ written res = written res'
  /\ count res = count res' /\ disk res = disk res'
  /\ (forall t, In t terms -> re_compile t = None ->
                outcome res = Completed -> In (InvalidRegex t) (messages res)).
Proof.
  cbv zeta. intros Hquiet.
  pose proof (compile_patterns_spec terms) as [Hcompiled Hwarnings].
  rewrite (full_compile_agrees terms Hquiet).
  split; [exact Hcompiled|]. split; [exact Hwarnings|].
  rewrite !full_run_analysis_spec.
  rewrite (no_raise_filter compiles terms Hquiet), Hquiet. cbn [andb].
  assert (Hwarn : forall t, In t terms -> re_compile t = None ->
            In (InvalidRegex t) (snd (preprocess true terms (default [] ignores)))).
  { intros t Hin Hnone. unfold preprocess.
    destruct (compile_patterns terms) as [compiled warnings].
    cbn [snd] in *. rewrite Hwarnings. apply in_map. apply filter_In.
    split; [exact Hin|]. unfold compiles. now rewrite Hnone. }
  destruct (mkdir os d) as [dir|];
    [|cbn [outcome]; repeat split; discriminate].
  destruct (clear_old os output_filename dir) as [dir'|];
    [|cbn [outcome]; repeat split; discriminate].
  cbv zeta. destruct (open_ok os);
    cbn [outcome written count disk messages].
  - rewrite (full_scan_ext
               (prepared true terms (default [] ignores))
               (prepared true (List.filter compiles terms) (default [] ignores))).
    + repeat split. intros t Hin Hnone _.
      apply in_or_app. left. now apply Hwarn.
    + intros line. symmetry. apply evaluate_filter_compiles.
  - repeat split. intros t Hin Hnone _.
    apply in_or_app. left. now apply Hwarn.
Qed.

(** X18, at a run with two patterns that do not compile. *)
Lemma X18_patterns_with_re_error_are_skipped_witness :
  let terms := ["[45"; "status=[45]\d{2}"; "*"] in
  let res := FullRun.run_analysis os_ok example_disk terms "http.txt" true None in
  let res' := FullRun.run_analysis os_ok example_disk ["status=[45]\d{2}"]
                                   "http.txt" true None in
  List.filter (@compiles model) terms = ["status=[45]\d{2}"]
  /\ messages res = [InvalidRegex "[45"; InvalidRegex "*"; Found 1]
  /\ written res
     = ["[app.log] [Matched: 'status=[45]\d{2}'] GET /run status=404"]
  /\ outcome res = outcome res' /\ written res = written res'
  /\ count res = count res' /\ disk res = disk res'.
Proof.
  split; [vm_compute; reflexivity|]. split; [vm_compute; reflexivity|].
  split; [vm_compute; reflexivity|].
  pose proof (X18_patterns_with_re_error_are_skipped model faults_model os_ok
                example_disk ["[45"; "status=[45]\d{2}"; "*"] "http.txt" None)
    as H.
  cbv zeta in H. specialize (H eq_refl).
  destruct H as (_ & _ & Ho & Hw & Hc & Hd & _).
  change (List.filter (@compiles model) ["[45"; "status=[45]\d{2}"; "*"])
    with ["status=[45]\d{2}"] in Ho, Hw, Hc, Hd.
  repeat split; assumption.
Defined.
